(** * api/query_commons.py: JSON-API query helpers

    A shallow embedding of the query-building module of the FAF api
    ([get_select_expressions], [get_order_by], [get_limit],
    [get_page_attributes] and [fetch_data]) together with the properties
    of its specification.

    Conventions of the embedding:
    - Python [str] is [string]; Python [int] is [Z] (unbounded);
    - a Python [dict] with string keys is an insertion-ordered association
      list ([dict V]); the request's parameter multi-dict, whose order is
      never observed, is a [gmap string string];
    - raising is a [Raise] in [result]; the database connection is an
      explicit state that records the executed statements. *)

From Stdlib Require Import ZArith Ascii String.
From Stdlib Require Import DecimalString DecimalPos DecimalZ.
From stdpp Require Import base strings list gmap.

Open Scope string_scope.
Open Scope list_scope.

(** ** Python built-ins used by the module *)

Module Py.

(** [sep.join(l)] *)
Fixpoint join (sep : string) (l : list string) : string :=
  match l with
  | [] => ""
  | [x] => x
  | x :: rest => x +:+ sep +:+ join sep rest
  end.

(** [s.split(c)] for a one-character separator [c]: the result is never
    empty, and [''.split(c)] is [['']]. *)
Fixpoint split (c : ascii) (s : string) : list string :=
  match s with
  | EmptyString => [""]
  | String a s' =>
      if decide (a = c) then "" :: split c s'
      else match split c s' with
           | tok :: toks => String a tok :: toks
           | [] => [String a ""]
           end
  end.

(** ['{}'.format(n)] for an [int] *)
Definition str (n : Z) : string := NilZero.string_of_int (Z.to_int n).

(** truthiness of an optional string ([None] and [''] are falsy) *)
Definition truthy (s : option string) : bool :=
  match s with
  | None | Some EmptyString => false
  | Some _ => true
  end.

End Py.

(** ** Insertion-ordered dictionaries *)

Definition dict (V : Type) : Type := list (string * V).

(** [d.keys()], in iteration order *)
Definition dict_keys {V} (d : dict V) : list string := d.*1.

(** [d.get(k)]: the binding of [k], if any *)
Fixpoint dict_get {V} (d : dict V) (k : string) : option V :=
  match d with
  | [] => None
  | (k', v) :: d' => if decide (k' = k) then Some v else dict_get d' k
  end.

(** [d[k] = v]: an existing key keeps its position, a new one goes last *)
Fixpoint dict_set {V} (d : dict V) (k : string) (v : V) : dict V :=
  match d with
  | [] => [(k, v)]
  | (k', v') :: d' =>
      if decide (k' = k) then (k', v) :: d' else (k', v') :: dict_set d' k v
  end.

(** [d.update(d2)] *)
Definition dict_update {V} (d d2 : dict V) : dict V :=
  foldl (λ acc kv, dict_set acc kv.1 kv.2) d d2.

(** ** Field Selector: [get_select_expressions] *)

(** ["{} AS `{}`".format(expr, field)] *)
Definition select_entry (expr field : string) : string :=
  expr +:+ " AS `" +:+ field +:+ "`".

(** The list [field_selects] built by the loop of [get_select_expressions]
    (lines 31-37). [fields] is [None], or a list of names. *)
Definition field_selects (fields : option (list string))
    (field_expression_dict : dict string) : list string :=
  let fields :=
    match fields with
    | None | Some [] => dict_keys field_expression_dict
    | Some fields => fields
    end in
  foldl (λ field_selects field,
           match dict_get field_expression_dict field with
           | Some expr => field_selects ++ [select_entry expr field]
           | None => field_selects
           end) [] fields.

Definition get_select_expressions (fields : option (list string))
    (field_expression_dict : dict string) : string :=
  Py.join ", " (field_selects fields field_expression_dict).

(** ** Errors and results *)

Inductive ErrorCode : Type :=
  | QUERY_INVALID_SORT_FIELD
  | QUERY_INVALID_PAGE_SIZE
  | QUERY_INVALID_PAGE_NUMBER.

(** A value handed to [int()] or carried by an [Error]: an [int] or a
    [str]. *)
Inductive value : Type :=
  | VInt (n : Z)
  | VStr (s : string).

(** [Error(code, arg)] *)
Record Error : Type := mkError { code : ErrorCode; arg : value }.

(** The exceptions that can leave the module. A failure of the database
    driver is [DatabaseError]; [KeyError] and [TypeError] come from the
    subscript operations of the id fix-up. *)
Inductive exn : Type :=
  | ApiException (errors : list Error)
  | KeyError (key : string)
  | TypeError
  | DatabaseError.

Inductive result (A : Type) : Type :=
  | Ok (a : A)
  | Raise (e : exn).
Arguments Ok {A} a.
Arguments Raise {A} e.

#[global] Instance result_ret : MRet result := λ A a, Ok a.
#[global] Instance result_bind : MBind result := λ A B f m,
  match m with
  | Ok a => f a
  | Raise e => Raise e
  end.

(** ** Sort Compiler: [get_order_by] *)

(** ['`{}` {}'.format(column, order)] *)
Definition order_entry (column order : string) : string :=
  "`" +:+ column +:+ "` " +:+ order.

(** The loop of lines 72-86 over the remaining tokens, with the list
    [order_bys] built so far; [continue] goes on with the next token and
    [raise] leaves the loop. *)
Fixpoint order_by_loop (valid_fields : list string)
    (sort_expressions : list string) (order_bys : list string)
    : result (list string) :=
  match sort_expressions with
  | [] => Ok order_bys
  | expression :: rest =>
      if decide (expression = "" ∨ expression = "-")
      then order_by_loop valid_fields rest order_bys
      else
        let '(order, column) :=
          match expression with
          | String "-" tail => ("DESC", tail)
          | _ => ("ASC", expression)
          end in
        if decide (column ∈ valid_fields)
        then order_by_loop valid_fields rest
               (order_bys ++ [order_entry column order])
        else Raise (ApiException [mkError QUERY_INVALID_SORT_FIELD (VStr column)])
  end.

Definition get_order_by (sort_expression : option string)
    (valid_fields : list string) : result string :=
  match sort_expression with
  | None | Some EmptyString => Ok ""
  | Some sort_expression =>
      let sort_expressions := Py.split "," sort_expression in
      order_bys ← order_by_loop valid_fields sort_expressions [];
      match order_bys with
      | [] => Ok ""
      | _ => Ok ("ORDER BY " +:+ Py.join ", " order_bys)
      end
  end.

(** ** Pagination Resolver: [get_limit] and [get_page_attributes] *)

(** Both arguments are [int]s when [fetch_data] calls [get_limit], so the
    two [int(...)] conversions are the identity. *)
Definition get_limit (page limit : Z) : string :=
  "LIMIT " +:+ Py.str ((page - 1) * limit) +:+ ", " +:+ Py.str limit.

(** [request.values]: the first value of each parameter. *)
Abbreviation request_values := (gmap string string).

(** [request.values.get(key, default)] *)
Definition values_get (request : request_values) (key : string)
    (default : value) : value :=
  from_option VStr default (request !! key).

Section with_int.

(** The built-in [int] on a [str]: [None] when it raises [ValueError]. *)
Variable int_of_str : string → option Z.

(** [int(v)] *)
Definition py_int (v : value) : option Z :=
  match v with
  | VInt n => Some n
  | VStr s => int_of_str s
  end.

Definition get_page_attributes (max_page_size : Z)
    (request : request_values) : result (Z * Z) :=
  let raw_page_size := values_get request "page[size]" (VInt max_page_size) in
  page_size ←
    match py_int raw_page_size with
    | Some page_size =>
        if (page_size >? max_page_size)%Z
        then Raise (ApiException [mkError QUERY_INVALID_PAGE_SIZE (VInt page_size)])
        else Ok page_size
    | None =>
        Raise (ApiException [mkError QUERY_INVALID_PAGE_SIZE raw_page_size])
    end;
  let raw_page := values_get request "page[number]" (VInt 1) in
  page ←
    match py_int raw_page with
    | Some page =>
        if (page <? 1)%Z
        then Raise (ApiException [mkError QUERY_INVALID_PAGE_NUMBER (VInt page)])
        else Ok page
    | None =>
        Raise (ApiException [mkError QUERY_INVALID_PAGE_NUMBER raw_page])
    end;
  Ok (page, page_size).

End with_int.

(** ** Rows and serialized documents *)

(** JSON-like Python values: what the cursor returns in a row and what
    [schema.dump(...).data] is made of. *)
#[local] Unset Elimination Schemes.
Inductive json : Type :=
  | JNone
  | JBool (b : bool)
  | JInt (n : Z)
  | JStr (s : string)
  | JList (items : list json)
  | JDict (d : list (string * json)).
#[local] Set Elimination Schemes.

(** A [DictCursor] row: column name to value. *)
Definition row : Type := dict json.

(** The [result] variable of [fetch_data]: [cursor.fetchall()] or
    [cursor.fetchone()]. *)
Inductive fetched : Type :=
  | FetchAll (rows : list row)
  | FetchOne (r : option row).

(** The part of the marshmallow schema [fetch_data] uses:
    [schema.Meta.type_] and [schema.dump(result, many=many).data]. *)
Record Schema : Type := mkSchema {
  type_ : string;
  dump : fetched → bool → json
}.

(** [k in x] *)
Definition py_contains (k : string) (x : json) : result bool :=
  match x with
  | JDict d => Ok (bool_decide (k ∈ dict_keys d))
  | JList items =>
      Ok (existsb (λ y, match y with
                        | JStr s => bool_decide (s = k)
                        | _ => false
                        end) items)
  | JStr s => Ok (bool_decide (is_Some (String.index 0 k s)))
  | _ => Raise TypeError
  end.

(** [x[k]] for a [str] subscript [k] *)
Definition py_getitem (x : json) (k : string) : result json :=
  match x with
  | JDict d =>
      match dict_get d k with
      | Some v => Ok v
      | None => Raise (KeyError k)
      end
  | _ => Raise TypeError
  end.

(** [x[k] = v] for a [str] subscript [k]: the object [x] afterwards *)
Definition py_setitem (x : json) (k : string) (v : json) : result json :=
  match x with
  | JDict d => Ok (JDict (dict_set d k v))
  | _ => Raise TypeError
  end.

(** The characters of a [str], as one-character strings. *)
Fixpoint chars (s : string) : list string :=
  match s with
  | EmptyString => []
  | String a s' => String a "" :: chars s'
  end.

(** The values [for item in x] goes through. *)
Definition py_iter (x : json) : result (list json) :=
  match x with
  | JList items => Ok items
  | JDict d => Ok (JStr <$> dict_keys d)
  | JStr s => Ok (JStr <$> chars s)
  | _ => Raise TypeError
  end.

(** ** The id fix-up of [fetch_data] (lines 181-188) *)

(** The loop of lines 183-186 over the remaining items; the result is the
    list with the items as the loop leaves them. The assignment evaluates
    [item['id']] first, then [item['attributes']], then stores into that
    object, which [item] still holds. *)
Fixpoint fixup_items (items : list json) : result (list json) :=
  match items with
  | [] => Ok []
  | item :: rest =>
      has_attributes ← py_contains "attributes" item;
      if negb has_attributes then Ok (item :: rest)
      else
        id ← py_getitem item "id";
        attributes ← py_getitem item "attributes";
        attributes ← py_setitem attributes "id" id;
        item ← py_setitem item "attributes" attributes;
        rest ← fixup_items rest;
        Ok (item :: rest)
  end.

(** Lines 182-188, run when [id_selected] holds. In the [many] branch the
    items of a list are updated in place; the items of any other iterable
    are strings, which the loop can only leave (by [break]) or fail on. *)
Definition fixup_id (many : bool) (data : json) : result json :=
  if many then
    resources ← py_getitem data "data";
    match resources with
    | JList items =>
        items ← fixup_items items;
        py_setitem data "data" (JList items)
    | _ =>
        items ← py_iter resources;
        _ ← fixup_items items;
        Ok data
    end
  else
    resource ← py_getitem data "data";
    has_id ← py_contains "id" resource;
    has_attributes ←
      (if has_id : bool then py_contains "attributes" resource else Ok false);
    if has_attributes : bool then
      id ← py_getitem resource "id";
      attributes ← py_getitem resource "attributes";
      attributes ← py_setitem attributes "id" id;
      resource ← py_setitem resource "attributes" attributes;
      py_setitem data "data" resource
    else Ok data.

(** ** The database connection *)

(** Bound arguments of a statement. *)
Definition sql_args : Type := option (dict json).

(** The module-level [db.connection]: what the database answers to a
    statement ([None] when the driver fails) and the statements executed
    so far. *)
Record connection : Type := mkConnection {
  answer : string → sql_args → option (list row);
  executed : list (string * sql_args)
}.

(** [cursor.execute(statement, args)] *)
Definition execute (conn : connection) (statement : string) (args : sql_args)
    : result (list row) * connection :=
  (from_option Ok (Raise DatabaseError) (answer conn statement args),
   mkConnection (answer conn) (executed conn ++ [(statement, args)])).

(** ** Query Orchestrator: [fetch_data] *)

(** Lines 127-134: the sanitized field list. *)
Definition sanitize_fields (requested_fields : option string)
    (select_dict : dict string) (nested_expression_dict : dict (dict string))
    : list string :=
  match requested_fields with
  | None | Some EmptyString => dict_keys select_dict
  | Some requested_fields =>
      let fields :=
        filter (λ field, field ∈ dict_keys select_dict)
               (Py.split "," requested_fields) in
      let nested_fields :=
        filter (λ field, field ∈ dict_keys nested_expression_dict)
               (Py.split "," requested_fields) in
      foldl (λ fields nested_field,
               match dict_get nested_expression_dict nested_field with
               | Some nested_dict => fields ++ dict_keys nested_dict
               | None => fields
               end) fields nested_fields
  end.

(** Lines 152-156: the WHERE part of the statement. *)
Definition where_clause (where_ where_extension : string) : string :=
  let where_ :=
    match where_ with
    | EmptyString => where_
    | _ => "WHERE " +:+ where_
    end in
  match where_extension with
  | EmptyString => where_
  | _ => where_ +:+ " " +:+ where_extension
  end.

(** Lines 160-161: ["SELECT {} FROM {} {} {} {}".format(...)] *)
Definition select_statement
    (select_expressions table where_ order_by_expression limit_expression
     : string) : string :=
  "SELECT " +:+ select_expressions +:+ " FROM " +:+ table +:+ " " +:+ where_
  +:+ " " +:+ order_by_expression +:+ " " +:+ limit_expression.

(** Lines 169-174: the enricher is applied to each row ([many]) or to the
    one row when it is truthy; its in-place update of a row is the row it
    returns here. *)
Definition enrich (enricher : option (row → row)) (res : fetched) : fetched :=
  match enricher with
  | None => res
  | Some enricher =>
      match res with
      | FetchAll rows => FetchAll (enricher <$> rows)
      | FetchOne None | FetchOne (Some []) => res
      | FetchOne (Some r) => FetchOne (Some (enricher r))
      end
  end.

(** Lines 164-176: the fetched rows, enriched and serialized. *)
Definition serialize (schema : Schema) (enricher : option (row → row))
    (many : bool) (rows : list row) : json :=
  let res := if many then FetchAll rows else FetchOne (head rows) in
  let res := enrich enricher res in
  dump schema res many.

(** What lines 118-156 hand to the execution: the statement, and whether
    [id] was among the fields before it was force-included. *)
Record query : Type := mkQuery {
  statement : string;
  id_selected : bool
}.

Section with_int_fetch.

Variable int_of_str : string → option Z.

(** Lines 118-156 of [fetch_data]: everything before the statement is
    executed. *)
Definition build_query (schema : Schema) (table : string)
    (root_select_expression_dict : dict string) (max_page_size : Z)
    (request : request_values) (where_ where_extension : string)
    (many : bool) (sort : option string) (limit : bool)
    (nested_expression_dict : dict (dict string)) : result query :=
  let requested_fields := request !! ("fields[" +:+ type_ schema +:+ "]") in
  let sort := if Py.truthy sort then sort else request !! "sort" in
  let select_dict :=
    foldl dict_update root_select_expression_dict
          nested_expression_dict.*2 in
  let fields :=
    sanitize_fields requested_fields select_dict nested_expression_dict in
  let id_selected := bool_decide ("id" ∈ fields) in
  let fields := if id_selected then fields else fields ++ ["id"] in
  let select_expressions := get_select_expressions (Some fields) select_dict in
  '(limit_expression, order_by_expression) ←
    (if many then
       '(page, page_size) ← get_page_attributes int_of_str max_page_size request;
       let limit_expression :=
         if limit then get_limit page page_size else "" in
       order_by_expression ← get_order_by sort fields;
       Ok (limit_expression, order_by_expression)
     else Ok ("", ""));
  let where_ := where_clause where_ where_extension in
  Ok (mkQuery
        (select_statement select_expressions table where_
                          order_by_expression limit_expression)
        id_selected).

(** [fetch_data]: the database connection is threaded explicitly. *)
Definition fetch_data (schema : Schema) (table : string)
    (root_select_expression_dict : dict string) (max_page_size : Z)
    (request : request_values) (where_ where_extension : string)
    (args : sql_args) (many : bool) (enricher : option (row → row))
    (sort : option string) (limit : bool)
    (nested_expression_dict : dict (dict string))
    (conn : connection) : result json * connection :=
  match build_query schema table root_select_expression_dict max_page_size
          request where_ where_extension many sort limit
          nested_expression_dict with
  | Raise e => (Raise e, conn)
  | Ok q =>
      let '(rows, conn) := execute conn (statement q) args in
      (rows ← rows;
       let data := serialize schema enricher many rows in
       if id_selected q then fixup_id many data else Ok data,
       conn)
  end.

End with_int_fetch.

(** ** Concrete instances used by the examples *)

(** A decimal reading of [int] on strings: an optional [-] and digits. It
    is narrower than [int]: it refuses surrounding blanks, a [+] sign and
    underscores between digits, and it has no limit on the number of
    digits. The theorems below hold for every [int_of_str]; this one
    instantiates the examples, at strings that both read alike. *)
Definition int_of_decimal (s : string) : option Z :=
  Z.of_int <$> NilZero.int_of_string s.

(** The docstring's field-expression map. *)
Definition example_dict : dict string :=
  [("id", "map.uid"); ("timestamp", "UNIX_TIMESTAMP(t.date)");
   ("likes", "feature.likes")].

(** A map resource with two fields, and the one row of its table. *)
Definition map_dict : dict string :=
  [("id", "map.id"); ("name", "map.name")].

Definition map_rows : list row := [[("name", JStr "x"); ("id", JInt 7)]].

(** ** Vocabulary of the specification *)

(** The fragment [out] is the list of the [expr AS `name`] entries of
    exactly the names [names], in that order, each with the expression the
    map binds to it, joined by a comma and a blank. The entry and the
    joining are spelled out here, with the library's [String.concat], and
    not taken from the embedding. *)
Definition select_list_of (d : dict string) (names : list string)
    (out : string) : Prop :=
  ∃ exprs, Forall2 (λ f e, dict_get d f = Some e) names exprs
           ∧ out = String.concat ", "
                     (zip_with (λ e f, e +:+ " AS `" +:+ f +:+ "`")
                               exprs names).

(** The tokens of a string between its commas: at least one token, none
    with a comma in it, and the string is the tokens with a comma between
    each two. *)
Definition comma_separated (s : string) (tokens : list string) : Prop :=
  tokens ≠ []
  ∧ Forall (λ t, Forall (λ a, a ≠ ","%char) (list_ascii_of_string t)) tokens
  ∧ String.concat "," tokens = s.

(** How often [name] occurs in a list of names. *)
Definition occurrences (name : string) (names : list string) : nat :=
  length (filter (λ n, n = name) names).

(** The tokens of a sort expression that survive: neither empty nor a lone
    [-]. *)
Definition sort_tokens (sort_expression : string) : list string :=
  filter (λ t, t ≠ "" ∧ t ≠ "-") (Py.split "," sort_expression).

(** The column of a token: the token without its [-] prefix. *)
Definition sort_column (token : string) : string :=
  match token with
  | String "-" column => column
  | _ => token
  end.

(** The direction of a token. *)
Definition sort_direction (token : string) : string :=
  match token with
  | String "-" _ => "DESC"
  | _ => "ASC"
  end.

(** The integer a decimal numeral denotes. *)
Definition decimal_value (numeral : string) : option Z :=
  Z.of_int <$> NilZero.int_of_string numeral.

(** The page size the request asks for is accepted: the parameter is
    absent and the size is the configured maximum, or it reads as an
    integer that does not exceed the maximum. *)
Definition page_size_accepted (int_of_str : string → option Z)
    (max_page_size : Z) (request : request_values) (page_size : Z) : Prop :=
  (request !! "page[size]" = None ∧ page_size = max_page_size)
  ∨ ∃ s, request !! "page[size]" = Some s
         ∧ int_of_str s = Some page_size ∧ (page_size ≤ max_page_size)%Z.

(** A resource object as the fix-up expects it: a [dict] with an [id] and
    with an [attributes] object. *)
Definition is_resource (item : json) : Prop :=
  ∃ d id attributes,
    item = JDict d ∧ dict_get d "id" = Some id
    ∧ dict_get d "attributes" = Some (JDict attributes).

(** The test ['attributes' not in item] of the loop succeeds. *)
Definition lacks_attributes (item : json) : Prop :=
  py_contains "attributes" item = Ok false.

(** The resource with its [id] stored in its [attributes] as well. *)
Definition with_id_attribute (item : json) : json :=
  match item with
  | JDict d =>
      match dict_get d "id", dict_get d "attributes" with
      | Some id, Some (JDict attributes) =>
          JDict (dict_set d "attributes" (JDict (dict_set attributes "id" id)))
      | _, _ => item
      end
  | _ => item
  end.

(** [item['attributes']['id']] *)
Definition attribute_id (item : json) : result json :=
  attributes ← py_getitem item "attributes";
  py_getitem attributes "id".

(** [item['attributes'][k]] *)
Definition attribute (item : json) (k : string) : result json :=
  attributes ← py_getitem item "attributes";
  py_getitem attributes k.

(** No character of the string is a comma. *)
Definition comma_free (s : string) : Prop :=
  Forall (λ a, a ≠ ","%char) (list_ascii_of_string s).

(** The exceptions of the subscript operations. *)
Definition subscript_error (e : exn) : Prop :=
  match e with
  | KeyError _ | TypeError => True
  | _ => False
  end.

(** A schema in the manner of marshmallow-jsonapi, for the examples: [id]
    goes to the resource itself, the other columns to its [attributes],
    which is left out when there is none. *)
Definition format_item (type_ : string) (r : row) : json :=
  JDict ([("type", JStr type_)]
         ++ match dict_get r "id" with
            | Some id => [("id", id)]
            | None => []
            end
         ++ match filter (λ kv, kv.1 ≠ "id") r with
            | [] => []
            | attributes => [("attributes", JDict attributes)]
            end).

Definition jsonapi_schema (type_ : string) : Schema :=
  mkSchema type_
    (λ res _,
       JDict [("data",
               match res with
               | FetchAll rows => JList (format_item type_ <$> rows)
               | FetchOne (Some r) => format_item type_ r
               | FetchOne None => JNone
               end)]).

(** A connection that answers every statement with the given rows. *)
Definition connection_with (rows : list row) : connection :=
  mkConnection (λ _ _, Some rows) [].

(** * Properties *)

(** ** Dictionaries *)

Section dict_facts.
Context {V : Type}.
Implicit Types (d : dict V) (k : string) (v : V).

Lemma dict_get_Some_keys d k v : dict_get d k = Some v → k ∈ dict_keys d.
Proof.
  induction d as [|[k' v'] d IH]; simpl; [done|].
  case_decide; subst; [intros _; left | intros; right; auto].
Qed.

Lemma dict_get_None_keys d k : dict_get d k = None ↔ k ∉ dict_keys d.
Proof.
  induction d as [|[k' v'] d IH]; simpl.
  - split; [intros _; apply not_elem_of_nil | done].
  - rewrite not_elem_of_cons. case_decide; subst.
    + split; [done | intros [? _]; done].
    + rewrite IH. split; [by auto | by intros [_ ?]].
Qed.

Lemma dict_get_is_Some d k : is_Some (dict_get d k) ↔ k ∈ dict_keys d.
Proof.
  destruct (dict_get d k) as [v|] eqn:E.
  - split; [intros _; by eapply dict_get_Some_keys | by eauto].
  - apply dict_get_None_keys in E. split; [by intros [? ?] | done].
Qed.

Lemma dict_get_set d k v k' :
  dict_get (dict_set d k v) k'
  = if decide (k = k') then Some v else dict_get d k'.
Proof.
  induction d as [|[k0 v0] d IH]; simpl.
  - repeat case_decide; congruence.
  - destruct (decide (k0 = k)); simpl; repeat case_decide; congruence.
Qed.

End dict_facts.

(** ** Splitting and joining *)

Lemma split_nonempty (c : ascii) (s : string) : Py.split c s ≠ [].
Proof.
  destruct s as [|a s]; simpl; [done|].
  destruct (decide (a = c)); [done|]. by destruct (Py.split c s).
Qed.

(** Joining the tokens with the separator gives the string back. *)
Lemma join_split (c : ascii) (s : string) :
  Py.join (String c "") (Py.split c s) = s.
Proof.
  induction s as [|a s IH]; simpl; [done|].
  destruct (decide (a = c)) as [->|Hne].
  - pose proof (split_nonempty c s) as Hs.
    destruct (Py.split c s) as [|tok toks]; [done|].
    change (Py.join (String c "") ("" :: tok :: toks))
      with (String c (Py.join (String c "") (tok :: toks))).
    by rewrite IH.
  - destruct (Py.split c s) as [|tok toks] eqn:Hs.
    + by destruct (split_nonempty c s).
    + rewrite <- IH. by destruct toks.
Qed.

(** [sep.join(l)] is the library's concatenation with a separator. *)
Lemma join_concat (sep : string) (l : list string) :
  Py.join sep l = String.concat sep l.
Proof.
  induction l as [|x l IH]; [done|]. destruct l as [|y l]; [done|].
  change (x +:+ sep +:+ Py.join sep (y :: l)
          = x +:+ sep +:+ String.concat sep (y :: l)).
  by rewrite IH.
Qed.

Lemma app_comma_inj (a a' r r' : string) :
  comma_free a → comma_free a' →
  a +:+ String "," r = a' +:+ String "," r' → a = a' ∧ r = r'.
Proof.
  unfold comma_free. revert a'.
  induction a as [|x a IH]; intros [|x' a']; simpl.
  - by intros _ _ [= ->].
  - intros _ [Hx' _]%Forall_cons [= <- _]. done.
  - intros [Hx _]%Forall_cons _ [= -> _]. done.
  - intros [_ Ha]%Forall_cons [_ Ha']%Forall_cons [= -> Heq].
    destruct (IH a' Ha Ha' Heq) as [-> ->]. done.
Qed.

Lemma comma_free_app_comma (a r : string) : ¬ comma_free (a +:+ String "," r).
Proof.
  unfold comma_free. induction a as [|x a IH]; simpl.
  - by intros [? _]%Forall_cons.
  - by intros [_ ?]%Forall_cons.
Qed.

Lemma split_comma_free (s : string) : Forall comma_free (Py.split "," s).
Proof.
  unfold comma_free. induction s as [|a s IH]; simpl.
  - by repeat constructor.
  - destruct (decide (a = ","%char)) as [->|Hne].
    + constructor; [constructor | done].
    + destruct (Py.split "," s) as [|tok toks]; [by repeat constructor|].
      apply Forall_cons in IH as [Htok Htoks].
      constructor; [by constructor | done].
Qed.

(** The split of a string is its comma-separated tokens, and there is no
    other way to write the string as comma-separated tokens. *)
Lemma split_comma_separated (s : string) :
  comma_separated s (Py.split "," s).
Proof.
  split_and!.
  - apply split_nonempty.
  - apply split_comma_free.
  - rewrite <- join_concat. apply join_split.
Qed.

Lemma comma_separated_unique (s : string) (tokens tokens' : list string) :
  comma_separated s tokens → comma_separated s tokens' → tokens = tokens'.
Proof.
  intros (Hne & Hfree & Hs) (Hne' & Hfree' & Hs'). subst s.
  fold comma_free in Hfree, Hfree'.
  revert tokens' Hne' Hfree' Hs' Hne.
  induction Hfree as [|a rest Ha Hrest IH]; [done|].
  intros [|a' rest'] Hne' Hfree' Heq _; [done|].
  apply Forall_cons in Hfree' as [Ha' Hrest'].
  destruct rest as [|b rest], rest' as [|b' rest'].
  - simpl in Heq. by subst.
  - simpl in Heq. subst a. by apply comma_free_app_comma in Ha.
  - simpl in Heq. subst a'. by apply comma_free_app_comma in Ha'.
  - change (a' +:+ String "," (String.concat "," (b' :: rest'))
            = a +:+ String "," (String.concat "," (b :: rest))) in Heq.
    apply app_comma_inj in Heq as [-> Heq]; [|done..].
    f_equal. by apply IH.
Qed.

(** ** Field Selector *)

Section field_selector.
Variable d : dict string.

(** The entry the loop appends for a field, if any. *)
Let entry_of (field : string) : option string :=
  (λ expr, select_entry expr field) <$> dict_get d field.

Lemma field_selects_loop (fields : list string) (acc : list string) :
  foldl (λ field_selects field,
           match dict_get d field with
           | Some expr => field_selects ++ [select_entry expr field]
           | None => field_selects
           end) acc fields
  = acc ++ omap entry_of fields.
Proof.
  revert acc. induction fields as [|f fields IH]; intros acc; csimpl.
  - by rewrite app_nil_r.
  - rewrite IH. unfold entry_of at 2. destruct (dict_get d f); csimpl.
    + by rewrite <- app_assoc.
    + done.
Qed.

Lemma entries_of_present (fields : list string) :
  ∃ exprs,
    Forall2 (λ f e, dict_get d f = Some e)
            (filter (λ f, f ∈ dict_keys d) fields) exprs
    ∧ omap entry_of fields
      = zip_with select_entry exprs (filter (λ f, f ∈ dict_keys d) fields).
Proof.
  induction fields as [|f fields (exprs & HF & Heq)]; csimpl.
  - exists []. split; [constructor | done].
  - unfold entry_of at 1. rewrite filter_cons.
    destruct (dict_get d f) as [e|] eqn:E; csimpl.
    + rewrite decide_True by (by eapply dict_get_Some_keys).
      exists (e :: exprs). split; [by constructor | by rewrite Heq].
    + apply dict_get_None_keys in E. rewrite decide_False by done.
      by exists exprs.
Qed.

Lemma field_selects_present (fields : option (list string)) :
  let requested :=
    match fields with
    | Some (f :: fs) => f :: fs
    | _ => dict_keys d
    end in
  ∃ exprs,
    Forall2 (λ f e, dict_get d f = Some e)
            (filter (λ f, f ∈ dict_keys d) requested) exprs
    ∧ field_selects fields d
      = zip_with select_entry exprs (filter (λ f, f ∈ dict_keys d) requested).
Proof.
  intros requested.
  destruct (entries_of_present requested) as (exprs & HF & Heq).
  exists exprs. split; [done|]. rewrite <- Heq.
  unfold field_selects. rewrite field_selects_loop.
  by destruct fields as [[|f fs]|].
Qed.

End field_selector.

Lemma filter_all {A} (P : A → Prop) `{!∀ x, Decision (P x)} (l : list A) :
  Forall P l → filter P l = l.
Proof.
  induction 1 as [|x l Hx _ IH]; [done|].
  by rewrite filter_cons, decide_True, IH.
Qed.

Lemma filter_keys_all (d : dict string) :
  filter (λ f, f ∈ dict_keys d) (dict_keys d) = dict_keys d.
Proof. apply filter_all, Forall_forall. auto. Qed.

Lemma occurrences_filter (P : string → Prop) `{!∀ x, Decision (P x)}
    (name : string) (names : list string) :
  occurrences name (filter P names)
  = if decide (P name) then occurrences name names else 0.
Proof.
  unfold occurrences. induction names as [|n names IH]; [by case_decide|].
  rewrite (filter_cons P), (filter_cons (λ n, n = name) n names).
  destruct (decide (P n)) as [Hn|Hn].
  - rewrite filter_cons.
    destruct (decide (n = name)) as [->|Hne]; simpl; rewrite IH; [|done].
    by rewrite !decide_True.
  - rewrite IH.
    destruct (decide (n = name)) as [->|Hne]; simpl; [|done].
    by rewrite !decide_False.
Qed.

(** The docstring's request, and the request for all fields. *)
Example get_select_expressions_docstring :
  get_select_expressions (Some ["id"; "timestamp"]) example_dict
  = "map.uid AS `id`, UNIX_TIMESTAMP(t.date) AS `timestamp`".
Proof. reflexivity. Qed.

Example get_select_expressions_unknown_dropped :
  get_select_expressions (Some ["likes"; "bogus"; "id"]) example_dict
  = "feature.likes AS `likes`, map.uid AS `id`".
Proof. reflexivity. Qed.

Example get_select_expressions_no_request :
  get_select_expressions None example_dict
  = "map.uid AS `id`, UNIX_TIMESTAMP(t.date) AS `timestamp`, feature.likes AS `likes`"
  ∧ get_select_expressions (Some []) example_dict
    = get_select_expressions None example_dict.
Proof. split; reflexivity. Qed.

(** C3: the select-list holds the [expr AS `name`] entries of exactly the
    requested fields that are keys of the map, in the order of the request,
    joined by a comma and a blank; names that are not keys are dropped.
    With no request ([None] or the empty list) it holds every key of the
    map, in the map's order. For the docstring's map and request this is
    [map.uid AS `id`, UNIX_TIMESTAMP(t.date) AS `timestamp`]. *)
Theorem get_select_expressions_spec (d : dict string) :
  (∀ f fs,
     select_list_of d (filter (λ x, x ∈ dict_keys d) (f :: fs))
                    (get_select_expressions (Some (f :: fs)) d))
  ∧ select_list_of d (dict_keys d) (get_select_expressions None d)
  ∧ select_list_of d (dict_keys d) (get_select_expressions (Some []) d)
  ∧ get_select_expressions (Some ["id"; "timestamp"])
      [("id", "map.uid"); ("timestamp", "UNIX_TIMESTAMP(t.date)");
       ("likes", "feature.likes")]
    = "map.uid AS `id`, UNIX_TIMESTAMP(t.date) AS `timestamp`"
  ∧ get_select_expressions (Some ["likes"; "bogus"; "id"])
      [("id", "map.uid"); ("timestamp", "UNIX_TIMESTAMP(t.date)");
       ("likes", "feature.likes")]
    = "feature.likes AS `likes`, map.uid AS `id`"
  ∧ get_select_expressions None
      [("id", "map.uid"); ("timestamp", "UNIX_TIMESTAMP(t.date)");
       ("likes", "feature.likes")]
    = "map.uid AS `id`, UNIX_TIMESTAMP(t.date) AS `timestamp`, feature.likes AS `likes`".
Proof.
  unfold select_list_of, get_select_expressions.
  split_and!; [| | |reflexivity..].
  - intros f fs.
    destruct (field_selects_present d (Some (f :: fs))) as (exprs & HF & ->).
    exists exprs. split; [done|]. by rewrite join_concat.
  - destruct (field_selects_present d None) as (exprs & HF & ->).
    cbv zeta in HF. rewrite filter_keys_all in *.
    exists exprs. split; [done|]. by rewrite join_concat.
  - destruct (field_selects_present d (Some [])) as (exprs & HF & ->).
    cbv zeta in HF. rewrite filter_keys_all in *.
    exists exprs. split; [done|]. by rewrite join_concat.
Qed.

Lemma dict_get_elem {V} (d : dict V) (k : string) (v : V) :
  NoDup (dict_keys d) → (k, v) ∈ d → dict_get d k = Some v.
Proof.
  unfold dict_keys. induction d as [|[k' v'] d IH]; csimpl.
  - by intros _ ?%elem_of_nil.
  - intros [Hk' Hd]%NoDup_cons [[= -> ->]|Hin]%elem_of_cons.
    + by rewrite decide_True.
    + rewrite decide_False; [by apply IH|].
      intros ->. apply Hk'. apply list_elem_of_fmap. by exists (k, v).
Qed.

(** With the unique keys of a Python [dict], selecting all fields lists
    the bindings of the map themselves. *)
Lemma get_select_expressions_all_fields (d : dict string) :
  NoDup (dict_keys d) →
  get_select_expressions None d
  = Py.join ", " ((λ kv, select_entry kv.2 kv.1) <$> d).
Proof.
  intros Hd. unfold get_select_expressions, field_selects.
  rewrite field_selects_loop. simpl. f_equal.
  assert (Hall : Forall (λ kv, dict_get d kv.1 = Some kv.2) d).
  { apply Forall_forall. intros [k e] Hin. by apply dict_get_elem. }
  unfold dict_keys. revert Hall. generalize d at 2 4 5 as l.
  induction 1 as [|[k e] l Hk _ IH]; csimpl; [done|].
  simpl in Hk. by rewrite Hk, IH.
Qed.

(** C4 (counterexample): a field requested twice is selected twice. *)
Lemma select_list_not_deduplicated :
  field_selects (Some ["id"; "id"]) [("id", "map.uid")]
  = ["map.uid AS `id`"; "map.uid AS `id`"]
  ∧ get_select_expressions (Some ["id"; "id"]) [("id", "map.uid")]
    = "map.uid AS `id`, map.uid AS `id`"
  ∧ occurrences "id" ["id"; "id"] = 2
  ∧ ¬ NoDup (field_selects (Some ["id"; "id"]) [("id", "map.uid")]).
Proof.
  split_and!; [reflexivity..|].
  intros H. apply NoDup_cons in H as [H _]. apply H. left.
Qed.

(** C4 (amended): the select-list has one entry for each occurrence of a
    key of the map in the requested list, so a name occurs in it as often
    as it was requested; names are unique in the select-list when they are
    unique in the request. *)
Theorem field_selects_occurrences (fields : option (list string))
    (d : dict string) :
  let requested :=
    match fields with
    | Some (f :: fs) => f :: fs
    | _ => dict_keys d
    end in
  ∃ names exprs,
    Forall2 (λ f e, dict_get d f = Some e) names exprs
    ∧ field_selects fields d = zip_with select_entry exprs names
    ∧ (∀ name, occurrences name names
               = if decide (name ∈ dict_keys d)
                 then occurrences name requested else 0)
    ∧ (NoDup requested → NoDup names).
Proof.
  intros requested.
  destruct (field_selects_present d fields) as (exprs & HF & Heq).
  fold requested in HF, Heq.
  exists (filter (λ f, f ∈ dict_keys d) requested), exprs.
  split_and!; [done | done | |].
  - intros name. apply occurrences_filter.
  - apply NoDup_filter.
Qed.

(** ** Sort Compiler *)

Lemma order_by_loop_spec (valid_fields tokens order_bys : list string) :
  order_by_loop valid_fields tokens order_bys
  = match list_find (λ t, sort_column t ∉ valid_fields)
                    (filter (λ t, t ≠ "" ∧ t ≠ "-") tokens) with
    | Some (_, t) =>
        Raise (ApiException
                 [mkError QUERY_INVALID_SORT_FIELD (VStr (sort_column t))])
    | None =>
        Ok (order_bys
            ++ ((λ t, order_entry (sort_column t) (sort_direction t))
                <$> filter (λ t, t ≠ "" ∧ t ≠ "-") tokens))
    end.
Proof.
  revert order_bys. induction tokens as [|t tokens IH]; intros order_bys.
  - simpl. by rewrite app_nil_r.
  - rewrite filter_cons. simpl.
    destruct (decide (t = "" ∨ t = "-")) as [Hskip|Hkeep].
    + rewrite decide_False by tauto. apply IH.
    + rewrite decide_True by tauto.
      assert (Hparse :
        (match t with String "-" tail => ("DESC", tail) | _ => ("ASC", t) end)
        = (sort_direction t, sort_column t)).
      { destruct t as [|a t']; [done|].
        unfold sort_direction, sort_column.
        by repeat (match goal with |- context [match ?x with _ => _ end] =>
                     destruct x end). }
      rewrite Hparse. csimpl.
      destruct (decide (sort_column t ∈ valid_fields)) as [Hin|Hout].
      * rewrite decide_False by tauto. rewrite IH.
        destruct (list_find _ _) as [[i t']|]; csimpl; [done|].
        by rewrite <- app_assoc.
      * by rewrite decide_True.
Qed.

(** C5: [get_order_by] takes the tokens of the expression between its
    commas and skips the empty tokens and the lone [-] tokens; the first
    surviving token whose column (the token without its [-] prefix) is not
    an allowed field raises [QUERY_INVALID_SORT_FIELD] with that column;
    otherwise the result is [ORDER BY] followed by the columns in input
    order, each in backticks and with [DESC] for a prefixed token and [ASC]
    for the others, joined by a comma and a blank, or the empty string when
    no token survives; [None] and the empty expression give the empty
    string. The format and the tokens are spelled out in the statement,
    not taken from the embedding. *)
Theorem get_order_by_spec (sort_expression : option string)
    (valid_fields : list string) :
  (∃ tokens,
     comma_separated (default "" sort_expression) tokens
     ∧ let surviving := filter (λ t, t ≠ "" ∧ t ≠ "-") tokens in
       get_order_by sort_expression valid_fields
       = match list_find (λ t, sort_column t ∉ valid_fields) surviving with
         | Some (_, t) =>
             Raise (ApiException
                      [mkError QUERY_INVALID_SORT_FIELD
                               (VStr (sort_column t))])
         | None =>
             Ok (match surviving with
                 | [] => ""
                 | _ => "ORDER BY "
                        +:+ String.concat ", "
                              ((λ t, "`" +:+ sort_column t +:+ "` "
                                     +:+ sort_direction t)
                               <$> surviving)
                 end)
         end)
  ∧ get_order_by None valid_fields = Ok ""
  ∧ get_order_by (Some "") valid_fields = Ok ""
  ∧ get_order_by (Some "likes,-timestamp") ["id"; "timestamp"; "likes"]
    = Ok "ORDER BY `likes` ASC, `timestamp` DESC"
  ∧ get_order_by (Some ",-,,") [] = Ok ""
  ∧ get_order_by (Some "likes,-name,age") ["likes"]
    = Raise (ApiException [mkError QUERY_INVALID_SORT_FIELD (VStr "name")]).
Proof.
  split_and!; [|reflexivity..].
  exists (Py.split "," (default "" sort_expression)).
  split; [apply split_comma_separated|]. cbv zeta.
  destruct sort_expression as [[|a s]|]; [done| |done].
  unfold get_order_by. rewrite order_by_loop_spec. simpl default.
  destruct (list_find _ _) as [[i t]|]; [done|]. simpl.
  destruct (filter _ _) as [|t ts]; [done|].
  by rewrite join_concat.
Qed.

(** The docstring's example, and an expression without surviving tokens. *)
Example get_order_by_docstring :
  get_order_by (Some "likes,-timestamp") (dict_keys example_dict)
  = Ok "ORDER BY `likes` ASC, `timestamp` DESC".
Proof. reflexivity. Qed.

Example get_order_by_no_tokens :
  get_order_by (Some ",-,,") [] = Ok "".
Proof. reflexivity. Qed.

Example get_order_by_invalid :
  get_order_by (Some "likes,-name,age") ["likes"]
  = Raise (ApiException [mkError QUERY_INVALID_SORT_FIELD (VStr "name")]).
Proof. reflexivity. Qed.

(** ** Pagination Resolver *)

Lemma to_int_not_nil (z : Z) :
  Z.to_int z ≠ Decimal.Pos Decimal.Nil ∧ Z.to_int z ≠ Decimal.Neg Decimal.Nil.
Proof.
  destruct z as [|p|p]; simpl; split; try done; intros [= H];
    by eapply DecimalPos.Unsigned.to_uint_nonnil.
Qed.

(** Printing an [int] gives a numeral that denotes it. *)
Lemma decimal_value_str (z : Z) : decimal_value (Py.str z) = Some z.
Proof.
  unfold decimal_value, Py.str.
  destruct (to_int_not_nil z) as [Hp Hn].
  rewrite NilZero.isi by done. simpl. by rewrite DecimalZ.of_to.
Qed.

(** C6: [get_limit p s] is [LIMIT offset, count], where the numeral
    [offset] denotes [(p - 1) * s] and the numeral [count] denotes [s];
    page 2 with page size 10 gives [LIMIT 10, 10]. *)
Theorem get_limit_spec (page limit : Z) :
  (∃ offset count,
     get_limit page limit = "LIMIT " +:+ offset +:+ ", " +:+ count
     ∧ decimal_value offset = Some ((page - 1) * limit)%Z
     ∧ decimal_value count = Some limit)
  ∧ get_limit 2 10 = "LIMIT 10, 10".
Proof.
  split; [|reflexivity].
  exists (Py.str ((page - 1) * limit)), (Py.str limit).
  by rewrite !decimal_value_str.
Qed.

Section page_attributes.
Variable int_of_str : string → option Z.
Variables (max_page_size : Z) (request : request_values).

(** C7: [page[size]] defaults to the configured maximum and [page[number]]
    to 1. A size that does not read as an integer raises
    [QUERY_INVALID_PAGE_SIZE] with the raw string, one above the maximum
    raises it with the integer. With an accepted size, a number that does
    not read as an integer raises [QUERY_INVALID_PAGE_NUMBER] with the raw
    string, one below 1 raises it with the integer, and every number from 1
    on, however large, is returned with the size. *)
Theorem get_page_attributes_spec :
  let run := get_page_attributes int_of_str max_page_size request in
  let invalid code v := Raise (ApiException [mkError code v]) in
  (∀ s, request !! "page[size]" = Some s → int_of_str s = None →
        run = invalid QUERY_INVALID_PAGE_SIZE (VStr s))
  ∧ (∀ s n, request !! "page[size]" = Some s → int_of_str s = Some n →
            (max_page_size < n)%Z →
            run = invalid QUERY_INVALID_PAGE_SIZE (VInt n))
  ∧ (∀ page_size,
       page_size_accepted int_of_str max_page_size request page_size →
       (request !! "page[number]" = None → run = Ok (1%Z, page_size))
       ∧ (∀ s, request !! "page[number]" = Some s → int_of_str s = None →
               run = invalid QUERY_INVALID_PAGE_NUMBER (VStr s))
       ∧ (∀ s p, request !! "page[number]" = Some s →
                 int_of_str s = Some p → (p < 1)%Z →
                 run = invalid QUERY_INVALID_PAGE_NUMBER (VInt p))
       ∧ (∀ s p, request !! "page[number]" = Some s →
                 int_of_str s = Some p → (1 ≤ p)%Z →
                 run = Ok (p, page_size))).
Proof.
  intros run invalid. subst run invalid.
  unfold get_page_attributes, values_get. split_and!.
  - intros s -> Hs. simpl. by rewrite Hs.
  - intros s n -> Hs Hn. simpl. rewrite Hs.
    by rewrite (proj2 (Z.gtb_lt _ _)).
  - intros page_size Hsize.
    assert (Hok : (match py_int int_of_str
                           (from_option VStr (VInt max_page_size)
                                        (request !! "page[size]")) with
                   | Some page_size =>
                       if (page_size >? max_page_size)%Z
                       then Raise (ApiException
                              [mkError QUERY_INVALID_PAGE_SIZE (VInt page_size)])
                       else Ok page_size
                   | None =>
                       Raise (ApiException
                         [mkError QUERY_INVALID_PAGE_SIZE
                            (from_option VStr (VInt max_page_size)
                                         (request !! "page[size]"))])
                   end) = Ok page_size).
    { destruct Hsize as [[-> ->]|(s & -> & Hs & Hle)]; simpl.
      - by rewrite Z.gtb_ltb, Z.ltb_irrefl.
      - rewrite Hs. destruct (Z.gtb_spec page_size max_page_size); [lia|done]. }
    rewrite Hok. csimpl. split_and!.
    + by intros ->.
    + intros s -> Hs. simpl. by rewrite Hs.
    + intros s p -> Hs Hp. simpl. rewrite Hs.
      by rewrite (proj2 (Z.ltb_lt _ _)).
    + intros s p -> Hs Hp. simpl. rewrite Hs.
      destruct (Z.ltb_spec p 1); [lia|done].
Qed.

End page_attributes.

Example page_defaults :
  get_page_attributes int_of_decimal 100 ∅ = Ok (1%Z, 100%Z).
Proof. reflexivity. Qed.

Example page_size_not_integer :
  get_page_attributes int_of_decimal 100 {["page[size]" := "abc"]}
  = Raise (ApiException [mkError QUERY_INVALID_PAGE_SIZE (VStr "abc")]).
Proof. reflexivity. Qed.

Example page_size_too_large :
  get_page_attributes int_of_decimal 100
    {["page[size]" := "101"; "page[number]" := "0"]}
  = Raise (ApiException [mkError QUERY_INVALID_PAGE_SIZE (VInt 101)]).
Proof. reflexivity. Qed.

Example page_number_zero :
  get_page_attributes int_of_decimal 100
    {["page[size]" := "10"; "page[number]" := "0"]}
  = Raise (ApiException [mkError QUERY_INVALID_PAGE_NUMBER (VInt 0)]).
Proof. reflexivity. Qed.

Example page_number_large :
  get_page_attributes int_of_decimal 100
    {["page[size]" := "-5"; "page[number]" := "123456789"]}
  = Ok (123456789%Z, (-5)%Z).
Proof. reflexivity. Qed.

(** ** The id fix-up *)

Lemma bind_Raise_inv {A B} (m : result A) (f : A → result B) (e : exn) :
  m ≫= f = Raise e → m = Raise e ∨ ∃ a, m = Ok a ∧ f a = Raise e.
Proof. destruct m as [a|e']; simpl; [by eauto | by intros [= ->]; left]. Qed.

Lemma py_contains_raise k x e : py_contains k x = Raise e → subscript_error e.
Proof. by destruct x; simpl; intros [= <-]. Qed.

Lemma py_getitem_raise x k e : py_getitem x k = Raise e → subscript_error e.
Proof.
  destruct x; simpl; try by intros [= <-].
  by destruct (dict_get d k); intros [= <-].
Qed.

Lemma py_setitem_raise x k v e : py_setitem x k v = Raise e → subscript_error e.
Proof. by destruct x; simpl; intros [= <-]. Qed.

Lemma py_iter_raise x e : py_iter x = Raise e → subscript_error e.
Proof. by destruct x; simpl; intros [= <-]. Qed.

Create HintDb fixup.
#[local] Hint Resolve py_contains_raise py_getitem_raise py_setitem_raise
  py_iter_raise : fixup.

(** Split a failing sequence of binds into the step that failed. *)
Ltac failing_step H :=
  repeat match type of H with
         | _ ≫= _ = Raise _ =>
             apply bind_Raise_inv in H as [H|(? & _ & H)];
             [by eauto with fixup|]; simpl in H
         | (if ?b then _ else _) = Raise _ => destruct b; simpl in H
         | Ok _ = Raise _ => discriminate H
         end.

Lemma fixup_items_raise (items : list json) (e : exn) :
  fixup_items items = Raise e → subscript_error e.
Proof.
  induction items as [|item rest IH]; simpl; [done|].
  intros H. failing_step H.
Qed.

#[local] Hint Resolve fixup_items_raise : fixup.

Lemma fixup_id_raise (many : bool) (data : json) (e : exn) :
  fixup_id many data = Raise e → subscript_error e.
Proof.
  unfold fixup_id. intros H. destruct many.
  - apply bind_Raise_inv in H as [H|(resources & _ & H)];
      [by eauto with fixup|].
    destruct resources; failing_step H; eauto with fixup.
  - apply bind_Raise_inv in H as [H|(resource & _ & H)];
      [by eauto with fixup|].
    apply bind_Raise_inv in H as [H|(has_id & _ & H)];
      [by eauto with fixup|].
    destruct has_id; simpl in H; failing_step H; eauto with fixup.
Qed.

Lemma with_id_attribute_resource (item : json) :
  is_resource item →
  ∃ id, py_getitem item "id" = Ok id
        ∧ py_getitem (with_id_attribute item) "id" = Ok id
        ∧ attribute_id (with_id_attribute item) = Ok id.
Proof.
  intros (d & id & attributes & -> & Hid & Hattr). exists id.
  unfold attribute_id, with_id_attribute. simpl. rewrite Hid, Hattr. simpl.
  rewrite !dict_get_set. rewrite Hid. simpl.
  rewrite dict_get_set. by rewrite decide_True.
Qed.

Lemma fixup_items_resource (item : json) (rest : list json) :
  is_resource item →
  fixup_items (item :: rest)
  = rest' ← fixup_items rest; Ok (with_id_attribute item :: rest').
Proof.
  intros (d & id & attributes & -> & Hid & Hattr). simpl.
  rewrite bool_decide_eq_true_2 by (by eapply dict_get_Some_keys).
  simpl. by rewrite Hid, Hattr.
Qed.

Lemma fixup_items_all (items : list json) :
  Forall is_resource items →
  fixup_items items = Ok (with_id_attribute <$> items).
Proof.
  induction 1 as [|item rest Hitem _ IH]; [done|].
  rewrite fixup_items_resource by done. by rewrite IH.
Qed.

Lemma fixup_items_break (pre : list json) (item : json) (post : list json) :
  Forall is_resource pre → lacks_attributes item →
  fixup_items (pre ++ item :: post)
  = Ok ((with_id_attribute <$> pre) ++ item :: post).
Proof.
  intros Hpre Hitem. induction Hpre as [|r pre Hr _ IH]; csimpl.
  - unfold lacks_attributes in Hitem. by rewrite Hitem.
  - change (fixup_items (r :: pre ++ item :: post)
            = Ok (with_id_attribute r
                  :: (with_id_attribute <$> pre) ++ item :: post)).
    rewrite fixup_items_resource by done. by rewrite IH.
Qed.

(** C2 (counterexample): the first resource has no [attributes], the
    second has; the fix-up returns the document as it was, and the second
    resource has no [id] in its [attributes]. The document is what
    [fetch_data] gets from the schema for two such rows. *)
Lemma later_resource_not_fixed :
  let first := JDict [("type", JStr "map"); ("id", JInt 1)] in
  let second :=
    JDict [("type", JStr "map"); ("id", JInt 2);
           ("attributes", JDict [("name", JStr "b")])] in
  let document := JDict [("data", JList [first; second])] in
  lacks_attributes first
  ∧ is_resource second
  ∧ fixup_id true document = Ok document
  ∧ attribute_id second = Raise (KeyError "id")
  ∧ (fetch_data int_of_decimal (jsonapi_schema "map") "map"
       [("id", "map.id"); ("name", "map.name")] 100 ∅ "" "" None true None
       None true []
       (connection_with [[("id", JInt 1)];
                         [("id", JInt 2); ("name", JStr "b")]])).1
    = Ok document.
Proof.
  split_and!; try reflexivity.
  by exists [("type", JStr "map"); ("id", JInt 2);
             ("attributes", JDict [("name", JStr "b")])],
            (JInt 2), [("name", JStr "b")].
Qed.

(** C2 (amended): the loop ends at the first resource without
    [attributes], without an error: that resource and all the resources
    after it are left as they are, and the resources before it have their
    [id] in their [attributes]. *)
Theorem fixup_stops_at_missing_attributes
    (doc : dict json) (pre : list json) (item : json) (post : list json) :
  Forall is_resource pre →
  lacks_attributes item →
  dict_get doc "data" = Some (JList (pre ++ item :: post)) →
  fixup_items (pre ++ item :: post)
  = Ok ((with_id_attribute <$> pre) ++ item :: post)
  ∧ fixup_id true (JDict doc)
    = Ok (JDict (dict_set doc "data"
                   (JList ((with_id_attribute <$> pre) ++ item :: post))))
  ∧ Forall (λ r, attribute_id (with_id_attribute r) = py_getitem r "id") pre.
Proof.
  intros Hpre Hitem Hdata. split_and!.
  - by apply fixup_items_break.
  - unfold fixup_id. simpl. rewrite Hdata. simpl.
    by rewrite fixup_items_break.
  - eapply Forall_impl; [exact Hpre|]. intros r Hr.
    destruct (with_id_attribute_resource r Hr) as (id & -> & _ & ->). done.
Qed.

Lemma fixup_stops_at_missing_attributes_witness :
  let first :=
    JDict [("id", JInt 1); ("attributes", JDict [("name", JStr "a")])] in
  let second := JDict [("id", JInt 2)] in
  let third :=
    JDict [("id", JInt 3); ("attributes", JDict [("name", JStr "c")])] in
  fixup_id true (JDict [("data", JList [first; second; third])])
  = Ok (JDict [("data",
          JList [JDict [("id", JInt 1);
                        ("attributes",
                         JDict [("name", JStr "a"); ("id", JInt 1)])];
                 second; third])]).
Proof.
  intros first second third.
  refine (proj1 (proj2 (fixup_stops_at_missing_attributes
            [("data", JList [first; second; third])] [first] second [third]
            _ _ _))).
  - repeat constructor.
    by exists [("id", JInt 1); ("attributes", JDict [("name", JStr "a")])],
              (JInt 1), [("name", JStr "a")].
  - reflexivity.
  - reflexivity.
Defined.

(** ** Query Orchestrator *)

Lemma get_page_attributes_raise int_of_str max_page_size request e :
  get_page_attributes int_of_str max_page_size request = Raise e →
  ∃ code v, e = ApiException [mkError code v]
            ∧ (code = QUERY_INVALID_PAGE_SIZE
               ∨ code = QUERY_INVALID_PAGE_NUMBER).
Proof.
  unfold get_page_attributes.
  destruct (py_int int_of_str (values_get request "page[size]" _))
    as [page_size|]; simpl.
  - destruct (page_size >? max_page_size)%Z; simpl.
    + intros [= <-]. eauto.
    + destruct (py_int int_of_str (values_get request "page[number]" _))
        as [page|]; simpl.
      * destruct (page <? 1)%Z; simpl; [|done]. intros [= <-]. eauto.
      * intros [= <-]. eauto.
  - intros [= <-]. eauto.
Qed.

Lemma get_order_by_raise sort_expression valid_fields e :
  get_order_by sort_expression valid_fields = Raise e →
  ∃ column, e = ApiException [mkError QUERY_INVALID_SORT_FIELD (VStr column)]
            ∧ column ∉ valid_fields.
Proof.
  destruct sort_expression as [[|a s]|]; [done| |done].
  unfold get_order_by. rewrite order_by_loop_spec.
  destruct (list_find _ _) as [[i t]|] eqn:Hfind.
  - intros [= <-]. apply list_find_Some in Hfind as (_ & Hbad & _). eauto.
  - simpl. by destruct (_ <$> _).
Qed.

Lemma fixup_id_many (doc : dict json) (items : list json) :
  dict_get doc "data" = Some (JList items) →
  Forall is_resource items →
  fixup_id true (JDict doc)
  = Ok (JDict (dict_set doc "data" (JList (with_id_attribute <$> items)))).
Proof.
  intros Hdata Hitems. unfold fixup_id. simpl. rewrite Hdata. simpl.
  by rewrite fixup_items_all.
Qed.

Lemma fixup_id_single (doc : dict json) (item : json) :
  dict_get doc "data" = Some item →
  is_resource item →
  fixup_id false (JDict doc)
  = Ok (JDict (dict_set doc "data" (with_id_attribute item))).
Proof.
  intros Hdata (d & id & attributes & -> & Hid & Hattr).
  unfold fixup_id. simpl. rewrite Hdata. simpl.
  rewrite !bool_decide_eq_true_2 by (by eapply dict_get_Some_keys).
  simpl. by rewrite Hid, Hattr.
Qed.

Lemma fixup_id_many_prefix (doc : dict json) (resources rest : list json) :
  dict_get doc "data" = Some (JList (resources ++ rest)) →
  Forall is_resource resources →
  match rest with
  | [] => True
  | item :: _ => lacks_attributes item
  end →
  fixup_id true (JDict doc)
  = Ok (JDict (dict_set doc "data"
                 (JList ((with_id_attribute <$> resources) ++ rest)))).
Proof.
  intros Hdata Hres Hrest. unfold fixup_id. simpl. rewrite Hdata. simpl.
  destruct rest as [|item rest].
  - rewrite !app_nil_r. by rewrite fixup_items_all.
  - by rewrite fixup_items_break.
Qed.

Lemma fixup_id_single_skip (doc d : dict json) :
  dict_get doc "data" = Some (JDict d) →
  "id" ∉ dict_keys d ∨ "attributes" ∉ dict_keys d →
  fixup_id false (JDict doc) = Ok (JDict doc).
Proof.
  intros Hdata Hmiss. unfold fixup_id. simpl. rewrite Hdata. simpl.
  destruct (decide ("id" ∈ dict_keys d)) as [Hid|Hid].
  - destruct Hmiss as [?|Hattr]; [done|].
    rewrite bool_decide_eq_true_2 by done. simpl.
    by rewrite bool_decide_eq_false_2.
  - by rewrite bool_decide_eq_false_2.
Qed.

(** The fields the sanitizing step keeps or adds. *)
Lemma elem_of_sanitize_fields (x : string) (requested_fields : option string)
    (select_dict : dict string) (nested : dict (dict string)) :
  x ∈ sanitize_fields requested_fields select_dict nested
  ↔ match requested_fields with
    | None | Some EmptyString => x ∈ dict_keys select_dict
    | Some requested =>
        (x ∈ Py.split "," requested ∧ x ∈ dict_keys select_dict)
        ∨ ∃ group sub,
            group ∈ Py.split "," requested
            ∧ dict_get nested group = Some sub ∧ x ∈ dict_keys sub
    end.
Proof.
  unfold sanitize_fields. destruct requested_fields as [[|a s]|]; [done| |done].
  set (tokens := Py.split "," (String a s)).
  assert (Hloop : ∀ groups fields,
    x ∈ foldl (λ fields nested_field,
                 match dict_get nested nested_field with
                 | Some nested_dict => fields ++ dict_keys nested_dict
                 | None => fields
                 end) fields groups
    ↔ x ∈ fields
      ∨ ∃ group sub, group ∈ groups ∧ dict_get nested group = Some sub
                     ∧ x ∈ dict_keys sub).
  { induction groups as [|g groups IH]; intros fields; simpl.
    - split; [by left|]. intros [?|(g & sub & ?%elem_of_nil & _)]; done.
    - rewrite IH. split.
      + intros [Hx|(g' & sub & Hg' & Hsub & Hx)].
        * destruct (dict_get nested g) as [sub|] eqn:Hg; [|by left].
          apply elem_of_app in Hx as [?|?]; [by left|].
          right. exists g, sub. split; [apply list_elem_of_here | done].
        * right. exists g', sub. split; [by apply list_elem_of_further | done].
      + intros [Hx|(g' & sub & [->|Hg']%elem_of_cons & Hsub & Hx)].
        * left. destruct (dict_get nested g); [|done].
          apply elem_of_app. by left.
        * left. rewrite Hsub. apply elem_of_app. by right.
        * right. by exists g', sub. }
  rewrite Hloop, list_elem_of_filter. split.
  - intros [[? ?]|(g & sub & [_ Hg]%list_elem_of_filter & Hsub & Hx)];
      [left; by split|].
    right. by exists g, sub.
  - intros [[? ?]|(g & sub & Hg & Hsub & Hx)]; [left; by split|].
    right. exists g, sub. split; [|done].
    apply list_elem_of_filter. split; [by eapply dict_get_Some_keys | done].
Qed.

Section orchestrator.
Variable int_of_str : string → option Z.
Variables (schema : Schema) (table : string).
Variables (root_select_expression_dict : dict string) (max_page_size : Z).
Variables (request : request_values) (where_extension : string).
Variables (args : sql_args) (enricher : option (row → row)).
Variable sort : option string.
Variable nested_expression_dict : dict (dict string).

Local Abbreviation build many limit where_ :=
  (build_query int_of_str schema table root_select_expression_dict
     max_page_size request where_ where_extension many sort limit
     nested_expression_dict).
Local Abbreviation fetch many limit where_ :=
  (fetch_data int_of_str schema table root_select_expression_dict
     max_page_size request where_ where_extension args many enricher sort
     limit nested_expression_dict).

(** The connection after one more statement. *)
Local Abbreviation after conn q :=
  (mkConnection (answer conn) (executed conn ++ [(statement q, args)])).

Lemma build_query_raise many limit where_ e :
  build many limit where_ = Raise e →
  ∃ code v, e = ApiException [mkError code v].
Proof.
  unfold build_query. destruct many; simpl; [|done].
  destruct (get_page_attributes _ _ _) as [[page page_size]|e'] eqn:Hpage;
    simpl.
  - destruct (get_order_by _ _) as [order_by|e'] eqn:Horder; simpl; [done|].
    intros [= <-].
    apply get_order_by_raise in Horder as (column & -> & _). eauto.
  - intros [= <-].
    apply get_page_attributes_raise in Hpage as (code & v & -> & _). eauto.
Qed.

Lemma fetch_data_invalid many limit where_ conn e :
  build many limit where_ = Raise e →
  fetch many limit where_ conn = (Raise e, conn).
Proof. unfold fetch_data. by intros ->. Qed.

Lemma fetch_data_database_error many limit where_ conn q :
  build many limit where_ = Ok q →
  answer conn (statement q) args = None →
  fetch many limit where_ conn = (Raise DatabaseError, after conn q).
Proof. unfold fetch_data, execute. by intros -> ->. Qed.

Lemma fetch_data_answered many limit where_ conn q rows :
  build many limit where_ = Ok q →
  answer conn (statement q) args = Some rows →
  fetch many limit where_ conn
  = (if id_selected q then fixup_id many (serialize schema enricher many rows)
     else Ok (serialize schema enricher many rows),
     after conn q).
Proof. unfold fetch_data, execute. by intros -> ->. Qed.

Lemma build_query_ok many limit where_ q :
  build many limit where_ = Ok q →
  ∃ select_expressions order_by limit_expression,
    statement q
    = select_statement select_expressions table
        (where_clause where_ where_extension) order_by limit_expression
    ∧ id_selected q
      = bool_decide
          ("id" ∈ sanitize_fields
                    (request !! ("fields[" +:+ type_ schema +:+ "]"))
                    (foldl dict_update root_select_expression_dict
                           nested_expression_dict.*2)
                    nested_expression_dict)
    ∧ (many = false → order_by = "" ∧ limit_expression = "")
    ∧ (many = true →
       ∃ page page_size,
         get_page_attributes int_of_str max_page_size request
         = Ok (page, page_size)
         ∧ limit_expression
           = if limit then get_limit page page_size else "").
Proof.
  unfold build_query. destruct many; simpl.
  - destruct (get_page_attributes _ _ _) as [[page page_size]|e]; simpl;
      [|done].
    destruct (get_order_by _ _) as [order_by|e]; simpl; [|done].
    intros [= <-]. simpl. do 3 eexists. split_and!; [done..| |]; [done|].
    intros _. by exists page, page_size.
  - intros [= <-]. simpl. do 3 eexists. split_and!; [done..|]. done.
Qed.

(** C8: when [fetch_data] raises an [ApiException], it was raised by the
    validation of lines 118-156, it carries one error, and the connection
    is as before the call: no statement has been executed. *)
Theorem validation_precedes_execution many limit where_ conn errors conn' :
  fetch_data int_of_str schema table root_select_expression_dict
    max_page_size request where_ where_extension args many enricher sort
    limit nested_expression_dict conn
  = (Raise (ApiException errors), conn') →
  conn' = conn
  ∧ build_query int_of_str schema table root_select_expression_dict
      max_page_size request where_ where_extension many sort limit
      nested_expression_dict
    = Raise (ApiException errors)
  ∧ ∃ code v, errors = [mkError code v].
Proof.
  intros Hfetch.
  destruct (build many limit where_) as [q|e] eqn:Hbuild.
  - destruct (answer conn (statement q) args) as [rows|] eqn:Hanswer.
    + rewrite (fetch_data_answered _ _ _ conn q rows) in Hfetch by done.
      injection Hfetch as Hres _. exfalso.
      destruct (id_selected q); [|done].
      by apply fixup_id_raise in Hres.
    + by rewrite (fetch_data_database_error _ _ _ conn q) in Hfetch.
  - rewrite (fetch_data_invalid _ _ _ conn e) in Hfetch by done.
    injection Hfetch as -> ->. split_and!; [done..|].
    apply build_query_raise in Hbuild as (code & v & [= ->]). eauto.
Qed.


(** C10: the [WHERE] keyword goes before a non-empty [where] only. With an
    empty [where] and a non-empty [where_extension], the WHERE part of the
    statement [fetch_data] executes is a blank and the extension, with no
    keyword. *)
Theorem where_extension_without_keyword many limit conn :
  where_extension ≠ "" →
  where_clause "" where_extension = " " +:+ where_extension
  ∧ (∀ w, w ≠ "" →
          where_clause w where_extension
          = ("WHERE " +:+ w) +:+ " " +:+ where_extension
          ∧ where_clause w "" = "WHERE " +:+ w)
  ∧ where_clause "" "" = ""
  ∧ ∀ q, build_query int_of_str schema table root_select_expression_dict
           max_page_size request "" where_extension many sort limit
           nested_expression_dict
         = Ok q →
         (∃ select_expressions order_by limit_expression,
            statement q
            = "SELECT " +:+ select_expressions +:+ " FROM " +:+ table
              +:+ " " +:+ (" " +:+ where_extension)
              +:+ " " +:+ order_by +:+ " " +:+ limit_expression)
         ∧ executed
             (fetch_data int_of_str schema table
                root_select_expression_dict max_page_size request ""
                where_extension args many enricher sort limit
                nested_expression_dict conn).2
           = executed conn ++ [(statement q, args)].
Proof.
  intros Hext.
  assert (Hclause : where_clause "" where_extension = " " +:+ where_extension).
  { unfold where_clause. by destruct where_extension. }
  split_and!; [done| |done|].
  - intros w Hw. unfold where_clause.
    destruct w; [done|]. by destruct where_extension.
  - intros q Hq. split.
    + destruct (build_query_ok _ _ _ q Hq)
        as (sel & order_by & lim & -> & _).
      rewrite Hclause. by exists sel, order_by, lim.
    + unfold fetch_data, execute. by rewrite Hq.
Qed.

(** C1 (amended): the fix-up runs exactly when [id] was among the
    sanitized fields before it was force-included: no field was requested
    and [id] is a key of the merged select map, or [id] was requested by
    name and is such a key, or a requested nested group has a sub-field
    [id]. Then, for a list, the resources before the first one without
    [attributes] (all of them when each has an [id] and an [attributes]
    object) get their [id] into their [attributes], and that one and the
    later ones stay as they are; a single resource with an [id] and an
    [attributes] object gets its [id] into its [attributes], and one that
    lacks either stays as it is. When [id] was force-included, the
    serialized document is returned as it is. *)
Theorem id_fixup_when_id_selected many limit where_ conn q rows :
  build_query int_of_str schema table root_select_expression_dict
    max_page_size request where_ where_extension many sort limit
    nested_expression_dict
  = Ok q →
  answer conn (statement q) args = Some rows →
  let data := serialize schema enricher many rows in
  let returned :=
    (fetch_data int_of_str schema table root_select_expression_dict
       max_page_size request where_ where_extension args many enricher sort
       limit nested_expression_dict conn).1 in
  let select_dict :=
    foldl dict_update root_select_expression_dict
          nested_expression_dict.*2 in
  id_selected q
  = bool_decide
      ("id" ∈ sanitize_fields
                (request !! ("fields[" +:+ type_ schema +:+ "]"))
                select_dict nested_expression_dict)
  ∧ match request !! ("fields[" +:+ type_ schema +:+ "]") with
    | None | Some EmptyString =>
        id_selected q = true ↔ "id" ∈ dict_keys select_dict
    | Some requested =>
        ∃ tokens,
          comma_separated requested tokens
          ∧ (id_selected q = true
             ↔ ("id" ∈ tokens ∧ "id" ∈ dict_keys select_dict)
               ∨ ∃ group sub,
                   group ∈ tokens
                   ∧ dict_get nested_expression_dict group = Some sub
                   ∧ "id" ∈ dict_keys sub)
    end
  ∧ (id_selected q = false → returned = Ok data)
  ∧ (id_selected q = true →
     returned = fixup_id many data
     ∧ (∀ doc resources rest,
          many = true → data = JDict doc →
          dict_get doc "data" = Some (JList (resources ++ rest)) →
          Forall is_resource resources →
          match rest with
          | [] => True
          | item :: _ => lacks_attributes item
          end →
          returned
          = Ok (JDict (dict_set doc "data"
                         (JList ((with_id_attribute <$> resources) ++ rest))))
          ∧ Forall (λ r, attribute_id (with_id_attribute r)
                         = py_getitem r "id") resources)
     ∧ (∀ doc item,
          many = false → data = JDict doc →
          dict_get doc "data" = Some item →
          is_resource item →
          returned = Ok (JDict (dict_set doc "data" (with_id_attribute item)))
          ∧ attribute_id (with_id_attribute item) = py_getitem item "id")
     ∧ (∀ doc d,
          many = false → data = JDict doc →
          dict_get doc "data" = Some (JDict d) →
          "id" ∉ dict_keys d ∨ "attributes" ∉ dict_keys d →
          returned = Ok data)).
Proof.
  intros Hq Hrows data returned select_dict. subst returned.
  rewrite (fetch_data_answered _ _ _ conn q rows Hq Hrows). simpl.
  fold data.
  assert (Hsel : id_selected q
                 = bool_decide
                     ("id" ∈ sanitize_fields
                               (request !! ("fields[" +:+ type_ schema +:+ "]"))
                               select_dict nested_expression_dict))
    by (by destruct (build_query_ok _ _ _ q Hq) as (? & ? & ? & _ & -> & _)).
  split_and!.
  - done.
  - rewrite Hsel.
    pose proof (elem_of_sanitize_fields "id"
                  (request !! ("fields[" +:+ type_ schema +:+ "]"))
                  select_dict nested_expression_dict) as Hin.
    destruct (request !! ("fields[" +:+ type_ schema +:+ "]"))
      as [[|a s]|].
    + by rewrite bool_decide_eq_true.
    + exists (Py.split "," (String a s)).
      split; [apply split_comma_separated|]. by rewrite bool_decide_eq_true.
    + by rewrite bool_decide_eq_true.
  - by intros ->.
  - intros ->. split_and!; [done| | |].
    + intros doc resources rest -> Hdoc Hdata Hres Hrest. rewrite Hdoc.
      split.
      * by apply fixup_id_many_prefix.
      * eapply Forall_impl; [exact Hres|]. intros r Hr.
        by destruct (with_id_attribute_resource r Hr) as (id & -> & _ & ->).
    + intros doc item -> Hdoc Hdata Hitem. rewrite Hdoc. split.
      * by apply fixup_id_single.
      * by destruct (with_id_attribute_resource item Hitem)
          as (id & -> & _ & ->).
    + intros doc d -> Hdoc Hdata Hmiss. rewrite Hdoc.
      by apply (fixup_id_single_skip doc d).
Qed.

End orchestrator.

(** ** The orchestrator on concrete requests *)

(** C1 (counterexample): the client asks for [name] only, so [id] is
    force-included; the document comes back as serialized, and the
    [attributes] of its resource have no [id]. *)
Lemma id_missing_when_force_included :
  let resource :=
    JDict [("type", JStr "map"); ("id", JInt 7);
           ("attributes", JDict [("name", JStr "x")])] in
  fetch_data int_of_decimal (jsonapi_schema "map") "map" map_dict 100
    {["fields[map]" := "name"]} "" "" None true None None true []
    (connection_with map_rows)
  = (Ok (JDict [("data", JList [resource])]),
     mkConnection (answer (connection_with map_rows))
       [("SELECT map.name AS `name`, map.id AS `id` FROM map   LIMIT 0, 100",
         None)])
  ∧ py_getitem resource "id" = Ok (JInt 7)
  ∧ attribute_id resource = Raise (KeyError "id").
Proof. split_and!; reflexivity. Qed.

Lemma id_fixup_when_id_selected_witness :
  (fetch_data int_of_decimal (jsonapi_schema "map") "map" map_dict 100
     {["fields[map]" := "id,name"]} "" "" None true None None true []
     (connection_with map_rows)).1
  = Ok (JDict [("data",
          JList [JDict [("type", JStr "map"); ("id", JInt 7);
                        ("attributes",
                         JDict [("name", JStr "x"); ("id", JInt 7)])]])]).
Proof.
  pose proof (id_fixup_when_id_selected int_of_decimal (jsonapi_schema "map")
    "map" map_dict 100 {["fields[map]" := "id,name"]} "" None None None []
    true true "" (connection_with map_rows)
    (mkQuery
       "SELECT map.id AS `id`, map.name AS `name` FROM map   LIMIT 0, 100"
       true)
    map_rows eq_refl eq_refl) as (_ & _ & _ & Hfix).
  destruct (Hfix eq_refl) as (_ & Hmany & _).
  refine (proj1 (Hmany _
                   [format_item "map" [("name", JStr "x"); ("id", JInt 7)]]
                   [] eq_refl eq_refl eq_refl _ I)).
  repeat constructor.
  by exists [("type", JStr "map"); ("id", JInt 7);
             ("attributes", JDict [("name", JStr "x")])],
            (JInt 7), [("name", JStr "x")].
Defined.

Lemma validation_precedes_execution_witness :
  fetch_data int_of_decimal (jsonapi_schema "map") "map" map_dict 100
    {["sort" := "-nme"]} "id > 3" "" None true None None true []
    (connection_with map_rows)
  = (Raise (ApiException [mkError QUERY_INVALID_SORT_FIELD (VStr "nme")]),
     connection_with map_rows)
  ∧ build_query int_of_decimal (jsonapi_schema "map") "map" map_dict 100
      {["sort" := "-nme"]} "id > 3" "" true None true []
    = Raise (ApiException [mkError QUERY_INVALID_SORT_FIELD (VStr "nme")]).
Proof.
  split; [reflexivity|].
  refine (proj1 (proj2 (validation_precedes_execution int_of_decimal
    (jsonapi_schema "map") "map" map_dict 100 {["sort" := "-nme"]} "" None
    None None [] true true "id > 3" (connection_with map_rows)
    [mkError QUERY_INVALID_SORT_FIELD (VStr "nme")]
    (connection_with map_rows) _))).
  reflexivity.
Defined.


Lemma where_extension_without_keyword_witness :
  executed
    (fetch_data int_of_decimal (jsonapi_schema "map") "map" map_dict 100 ∅
       "" "GROUP BY id" None false None None true []
       (connection_with map_rows)).2
  = [("SELECT map.id AS `id`, map.name AS `name` FROM map  GROUP BY id  ",
      None)].
Proof.
  refine (proj2 (proj2 (proj2 (proj2
    (where_extension_without_keyword int_of_decimal (jsonapi_schema "map")
       "map" map_dict 100 ∅ "GROUP BY id" None None None [] false true
       (connection_with map_rows) _)))
    (mkQuery
       "SELECT map.id AS `id`, map.name AS `name` FROM map  GROUP BY id  "
       true)
    eq_refl)).
  discriminate.
Defined.

Example fetch_data_where_and_extension :
  executed
    (fetch_data int_of_decimal (jsonapi_schema "map") "map" map_dict 100
       {["sort" := "-name"]} "id > 3" "GROUP BY id" None true None None true
       [] (connection_with map_rows)).2
  = [("SELECT map.id AS `id`, map.name AS `name` FROM map WHERE id > 3 GROUP BY id ORDER BY `name` DESC LIMIT 0, 100",
      None)].
Proof. reflexivity. Qed.

(** * Further properties of the module *)

(** ** Field Selector: the empty select-list *)

Lemma select_entry_nonempty (expr field : string) : select_entry expr field ≠ "".
Proof. unfold select_entry. by destruct expr. Qed.

Lemma join_empty (sep : string) (l : list string) :
  Forall (λ x, x ≠ "") l → Py.join sep l = "" → l = [].
Proof.
  destruct 1 as [|x l Hx _]; [done|]. simpl.
  destruct l; [done|]. by destruct x.
Qed.

Lemma filter_nil_Forall {A} (P : A → Prop) `{!∀ x, Decision (P x)}
    (l : list A) :
  filter P l = [] ↔ Forall (λ x, ¬ P x) l.
Proof.
  induction l as [|x l IH]; [by split; [constructor|]|].
  rewrite filter_cons, Forall_cons. destruct (decide (P x)).
  - split; [done | by intros [? _]].
  - rewrite IH. by split; [|intros [_ ?]].
Qed.

(** X1: the select-list is the empty string exactly when none of the
    requested fields (with no request: none of the keys, so the map is
    empty) is a key of the map. *)
Theorem get_select_expressions_empty_iff (fields : option (list string))
    (d : dict string) :
  let requested :=
    match fields with
    | Some (f :: fs) => f :: fs
    | _ => dict_keys d
    end in
  get_select_expressions fields d = ""
  ↔ Forall (λ f, f ∉ dict_keys d) requested.
Proof.
  intros requested. unfold get_select_expressions.
  destruct (field_selects_present d fields) as (exprs & HF & ->).
  fold requested in HF |- *.
  rewrite <- (filter_nil_Forall (λ f, f ∈ dict_keys d)).
  split.
  - intros Hjoin. apply join_empty in Hjoin.
    + apply Forall2_length in HF.
      destruct (filter _ requested); [done|]. by destruct exprs.
    + clear. generalize (filter (λ f, f ∈ dict_keys d) requested) as names.
      induction exprs as [|e exprs IH]; intros [|n names]; simpl;
        constructor; auto using select_entry_nonempty.
  - intros Hnil. rewrite Hnil in HF |- *. by destruct exprs.
Qed.

Example get_select_expressions_only_unknown :
  get_select_expressions (Some ["bogus"; "nope"]) example_dict = "".
Proof. reflexivity. Qed.

(** ** Sort Compiler: when it succeeds, and what it raises *)

(** The result of [get_order_by] in terms of the surviving tokens. *)
Lemma get_order_by_tokens (sort_expression : option string)
    (valid_fields : list string) :
  get_order_by sort_expression valid_fields
  = match list_find (λ t, sort_column t ∉ valid_fields)
                    (sort_tokens (default "" sort_expression)) with
    | Some (_, t) =>
        Raise (ApiException
                 [mkError QUERY_INVALID_SORT_FIELD (VStr (sort_column t))])
    | None =>
        Ok (match sort_tokens (default "" sort_expression) with
            | [] => ""
            | tokens =>
                "ORDER BY "
                +:+ Py.join ", "
                      ((λ t, order_entry (sort_column t) (sort_direction t))
                       <$> tokens)
            end)
    end.
Proof.
  destruct sort_expression as [[|a s]|]; [done| |done].
  unfold get_order_by, sort_tokens. rewrite order_by_loop_spec. simpl.
  destruct (list_find _ _) as [[i t]|]; [done|].
  by destruct (filter _ _).
Qed.

Lemma sort_column_nonempty (t : string) :
  t ≠ "" ∧ t ≠ "-" → sort_column t ≠ "".
Proof.
  intros [H1 H2]. destruct t as [|a t]; [done|]. unfold sort_column.
  destruct t as [|b t]; [|by repeat case_match].
  by repeat case_match.
Qed.

(** X2: [get_order_by] returns (does not raise) exactly when the column of
    every surviving token is in the allow-list. *)
Theorem get_order_by_ok_iff (sort_expression : option string)
    (valid_fields : list string) :
  (∃ out, get_order_by sort_expression valid_fields = Ok out)
  ↔ Forall (λ t, sort_column t ∈ valid_fields)
           (sort_tokens (default "" sort_expression)).
Proof.
  rewrite get_order_by_tokens.
  destruct (list_find _ _) as [[i t]|] eqn:Hfind.
  - apply list_find_Some in Hfind as (Ht%list_elem_of_lookup_2 & Hbad & _).
    split; [by intros [out [=]]|].
    intros Hall. rewrite Forall_forall in Hall. by destruct Hbad; auto.
  - apply list_find_None in Hfind. split; [intros _ | by eauto].
    eapply Forall_impl; [exact Hfind|]. intros t Ht.
    by destruct (decide (sort_column t ∈ valid_fields)).
Qed.

(** X3: the fragment does not depend on the allow-list: what
    [get_order_by] returns for one allow-list it returns for every larger
    one. *)
Theorem get_order_by_allow_more (sort_expression : option string)
    (valid_fields valid_fields' : list string) (out : string) :
  valid_fields ⊆ valid_fields' →
  get_order_by sort_expression valid_fields = Ok out →
  get_order_by sort_expression valid_fields' = Ok out.
Proof.
  intros Hsub. rewrite !get_order_by_tokens.
  destruct (list_find (λ t, sort_column t ∉ valid_fields) _)
    as [[i t]|] eqn:Hfind; [done|].
  intros Hout. apply list_find_None in Hfind.
  assert (Hfind' :
    list_find (λ t, sort_column t ∉ valid_fields')
              (sort_tokens (default "" sort_expression)) = None).
  { apply list_find_None. eapply Forall_impl; [exact Hfind|].
    intros t Ht Hbad. apply Ht. intros Hin. by apply Hbad, Hsub. }
  by rewrite Hfind'.
Qed.

Lemma get_order_by_allow_more_witness :
  get_order_by (Some "likes,-timestamp") ["likes"; "id"; "timestamp"]
  = Ok "ORDER BY `likes` ASC, `timestamp` DESC".
Proof.
  apply (get_order_by_allow_more (Some "likes,-timestamp")
           ["timestamp"; "likes"] ["likes"; "id"; "timestamp"]).
  - intros x. rewrite !elem_of_cons, !elem_of_nil. tauto.
  - reflexivity.
Defined.

(** X4: the only exception of [get_order_by] is an [ApiException] with the
    single error [QUERY_INVALID_SORT_FIELD]; the column it carries is not
    empty, is not in the allow-list, and is a token of the expression
    without its [-] prefix. *)
Theorem get_order_by_raises_invalid_column (sort_expression : option string)
    (valid_fields : list string) (e : exn) :
  get_order_by sort_expression valid_fields = Raise e →
  ∃ sort_expression' token,
    sort_expression = Some sort_expression'
    ∧ token ∈ Py.split "," sort_expression'
    ∧ e = ApiException
            [mkError QUERY_INVALID_SORT_FIELD (VStr (sort_column token))]
    ∧ sort_column token ≠ ""
    ∧ sort_column token ∉ valid_fields.
Proof.
  rewrite get_order_by_tokens.
  destruct (list_find _ _) as [[i t]|] eqn:Hfind; [|done].
  intros [= <-].
  apply list_find_Some in Hfind as (Ht%list_elem_of_lookup_2 & Hbad & _).
  unfold sort_tokens in Ht. apply list_elem_of_filter in Ht as [Hkeep Ht].
  destruct sort_expression as [s|]; simpl in Ht.
  - exists s, t. split_and!; auto using sort_column_nonempty.
  - apply list_elem_of_singleton in Ht as ->. by destruct Hkeep.
Qed.

Lemma get_order_by_raises_invalid_column_witness :
  ∃ token,
    token ∈ Py.split "," "likes,-name,age"
    ∧ sort_column token = "name" ∧ sort_column token ∉ ["likes"].
Proof.
  destruct (get_order_by_raises_invalid_column (Some "likes,-name,age")
              ["likes"]
              (ApiException [mkError QUERY_INVALID_SORT_FIELD (VStr "name")])
              eq_refl)
    as (s & token & [= <-] & Hin & [= Hcol] & _ & Hout).
  exists token. split_and!; [exact Hin | by symmetry | exact Hout].
Defined.

(** ** Pagination Resolver: what it returns, what it raises *)

Section page_attributes_results.
Variable int_of_str : string → option Z.
Variables (max_page_size : Z) (request : request_values).

(** X5: a pair returned by [get_page_attributes] has a page number of at
    least 1 and a page size of at most the maximum; each is the default
    (1, the maximum) when its parameter is absent and the integer the
    parameter reads as otherwise. *)
Theorem get_page_attributes_ok_bounds (page page_size : Z) :
  get_page_attributes int_of_str max_page_size request = Ok (page, page_size) →
  (1 ≤ page)%Z
  ∧ (page_size ≤ max_page_size)%Z
  ∧ match request !! "page[size]" with
    | None => page_size = max_page_size
    | Some raw => int_of_str raw = Some page_size
    end
  ∧ match request !! "page[number]" with
    | None => page = 1%Z
    | Some raw => int_of_str raw = Some page
    end.
Proof.
  unfold get_page_attributes, values_get.
  destruct (request !! "page[size]") as [raw_size|]; simpl.
  - destruct (int_of_str raw_size) as [n|]; simpl; [|done].
    destruct (Z.gtb_spec n max_page_size); simpl; [done|].
    destruct (request !! "page[number]") as [raw|]; simpl.
    + destruct (int_of_str raw) as [p|]; simpl; [|done].
      destruct (Z.ltb_spec p 1); simpl; [done|].
      intros [= <- <-]. split_and!; [lia|lia|done|done].
    + intros [= <- <-]. split_and!; [lia|lia|done|done].
  - destruct (Z.gtb_spec max_page_size max_page_size); [lia|]. simpl.
    destruct (request !! "page[number]") as [raw|]; simpl.
    + destruct (int_of_str raw) as [p|]; simpl; [|done].
      destruct (Z.ltb_spec p 1); simpl; [done|].
      intros [= <- <-]. split_and!; [lia|lia|done|done].
    + intros [= <- <-]. split_and!; [lia|lia|done|done].
Qed.

(** X6: [get_page_attributes] raises only for a parameter that is present:
    [QUERY_INVALID_PAGE_SIZE] with the raw string when [page[size]] does
    not read as an integer and with the integer when it exceeds the
    maximum; with an accepted size, [QUERY_INVALID_PAGE_NUMBER] with the
    raw string when [page[number]] does not read as an integer and with the
    integer when it is below 1. In particular a size is never refused for
    being small. *)
Theorem get_page_attributes_raise_inv (e : exn) :
  get_page_attributes int_of_str max_page_size request = Raise e →
  (∃ raw, request !! "page[size]" = Some raw
          ∧ (int_of_str raw = None
             ∧ e = ApiException [mkError QUERY_INVALID_PAGE_SIZE (VStr raw)]
             ∨ ∃ n, int_of_str raw = Some n ∧ (max_page_size < n)%Z
                    ∧ e = ApiException
                            [mkError QUERY_INVALID_PAGE_SIZE (VInt n)]))
  ∨ (∃ page_size raw,
       page_size_accepted int_of_str max_page_size request page_size
       ∧ request !! "page[number]" = Some raw
       ∧ (int_of_str raw = None
          ∧ e = ApiException [mkError QUERY_INVALID_PAGE_NUMBER (VStr raw)]
          ∨ ∃ p, int_of_str raw = Some p ∧ (p < 1)%Z
                 ∧ e = ApiException
                         [mkError QUERY_INVALID_PAGE_NUMBER (VInt p)])).
Proof.
  unfold get_page_attributes, values_get, page_size_accepted.
  destruct (request !! "page[size]") as [raw_size|]; simpl.
  - destruct (int_of_str raw_size) as [n|] eqn:Hn; simpl.
    + destruct (Z.gtb_spec n max_page_size); simpl.
      * intros [= <-]. left. exists raw_size. split; [done|]. right.
        exists n. split_and!; [done|lia|done].
      * destruct (request !! "page[number]") as [raw|]; simpl; [|done].
        intros He. right. exists n, raw. split_and!; [by eauto 6|done|].
        destruct (int_of_str raw) as [p|]; simpl in He.
        -- destruct (Z.ltb_spec p 1); simpl in He; [|done].
           injection He as <-. right. by exists p.
        -- injection He as <-. by left.
    + intros [= <-]. left. exists raw_size. split; [done|]. by left.
  - destruct (Z.gtb_spec max_page_size max_page_size); [lia|]. simpl.
    destruct (request !! "page[number]") as [raw|]; simpl; [|done].
    intros He. right. exists max_page_size, raw. split_and!; [by left|done|].
    destruct (int_of_str raw) as [p|]; simpl in He.
    + destruct (Z.ltb_spec p 1); simpl in He; [|done].
      injection He as <-. right. by exists p.
    + injection He as <-. by left.
Qed.

End page_attributes_results.

Lemma get_page_attributes_ok_bounds_witness :
  get_page_attributes int_of_decimal 100
    {["page[size]" := "25"; "page[number]" := "3"]}
  = Ok (3%Z, 25%Z)
  ∧ (1 ≤ 3)%Z ∧ (25 ≤ 100)%Z.
Proof.
  assert (Hok :
    get_page_attributes int_of_decimal 100
      {["page[size]" := "25"; "page[number]" := "3"]}
    = Ok (3%Z, 25%Z)) by reflexivity.
  split; [exact Hok|].
  destruct (get_page_attributes_ok_bounds _ _ _ _ _ Hok) as (H1 & H2 & _).
  exact (conj H1 H2).
Defined.

Lemma get_page_attributes_raise_inv_witness :
  get_page_attributes int_of_decimal 100 {["page[size]" := "1000"]}
  = Raise (ApiException [mkError QUERY_INVALID_PAGE_SIZE (VInt 1000)])
  ∧ ∃ raw, ({["page[size]" := "1000"]} : request_values) !! "page[size]"
           = Some raw.
Proof.
  assert (Hraise :
    get_page_attributes int_of_decimal 100 {["page[size]" := "1000"]}
    = Raise (ApiException [mkError QUERY_INVALID_PAGE_SIZE (VInt 1000)]))
    by reflexivity.
  split; [exact Hraise|].
  destruct (get_page_attributes_raise_inv _ _ _ _ Hraise)
    as [(raw & Hraw & _)|(page_size & raw & _ & Hraw & _)].
  - by exists raw.
  - discriminate Hraw.
Defined.

(** ** [get_limit] tells pages apart *)

Lemma comma_free_uint (d : Decimal.uint) :
  comma_free (NilEmpty.string_of_uint d).
Proof.
  unfold comma_free. induction d; simpl; constructor; done.
Qed.

Lemma comma_free_str (z : Z) : comma_free (Py.str z).
Proof.
  unfold Py.str, NilZero.string_of_int, NilZero.string_of_uint.
  destruct (Z.to_int z) as [d|d].
  - destruct d; try apply comma_free_uint. by repeat constructor.
  - unfold comma_free. simpl. constructor; [done|].
    destruct d; try apply comma_free_uint. by repeat constructor.
Qed.

Lemma str_inj (x y : Z) : Py.str x = Py.str y → x = y.
Proof.
  intros Heq. pose proof (decimal_value_str x) as Hx.
  rewrite Heq, decimal_value_str in Hx. by injection Hx.
Qed.

(** X7: the fragment determines the offset and the count: two calls of
    [get_limit] give the same string only for the same page size and the
    same offset, so, for a page size other than 0, only for the same
    page. *)
Theorem get_limit_inj (page limit page' limit' : Z) :
  get_limit page limit = get_limit page' limit' →
  limit = limit'
  ∧ ((page - 1) * limit = (page' - 1) * limit')%Z
  ∧ (limit ≠ 0%Z → page = page').
Proof.
  unfold get_limit. intros Heq. simpl in Heq.
  injection Heq as Heq.
  apply app_comma_inj in Heq as [Hoffset Hcount];
    [|apply comma_free_str..].
  injection Hcount as Hcount.
  apply str_inj in Hoffset. apply str_inj in Hcount. subst limit'.
  split_and!; [done..|]. intros Hne. nia.
Qed.

Lemma get_limit_inj_witness :
  get_limit 1 0 = get_limit 5 0
  ∧ (0 = 0 ∧ (1 - 1) * 0 = (5 - 1) * 0)%Z.
Proof.
  split; [reflexivity|].
  destruct (get_limit_inj 1 0 5 0 eq_refl) as (H1 & H2 & _).
  exact (conj H1 H2).
Defined.

(** ** Merging the nested maps into the select map *)

Section dict_merge.
Context {V : Type}.
Implicit Types (d : dict V) (k : string) (v : V).

Lemma dict_keys_set d k v :
  dict_keys (dict_set d k v)
  = if decide (k ∈ dict_keys d) then dict_keys d else dict_keys d ++ [k].
Proof.
  induction d as [|[k' v'] d IH]; simpl; [done|].
  unfold dict_keys in *. destruct (decide (k' = k)) as [->|E]; csimpl.
  - rewrite decide_True; [done | apply list_elem_of_here].
  - rewrite IH. destruct (decide (k ∈ d.*1)).
    + rewrite decide_True; [done | by apply list_elem_of_further].
    + rewrite decide_False; [done | by apply not_elem_of_cons].
Qed.

Lemma dict_update_cons d k v d2 :
  dict_update d ((k, v) :: d2) = dict_update (dict_set d k v) d2.
Proof. done. Qed.

Lemma dict_keys_update d d2 :
  ∃ added, dict_keys (dict_update d d2) = dict_keys d ++ added
           ∧ ∀ k, k ∈ added → k ∈ dict_keys d2.
Proof.
  revert d. induction d2 as [|[k v] d2 IH]; intros d.
  - exists []. split; [by rewrite app_nil_r | by intros k ?%elem_of_nil].
  - rewrite dict_update_cons.
    destruct (IH (dict_set d k v)) as (added & -> & Hadded).
    rewrite dict_keys_set. destruct (decide (k ∈ dict_keys d)).
    + exists added. split; [done|].
      intros k' Hk'. apply list_elem_of_further. by apply Hadded.
    + exists (k :: added). split; [by rewrite <- app_assoc|].
      intros k' [->|Hk']%elem_of_cons;
        [apply list_elem_of_here | apply list_elem_of_further; by apply Hadded].
Qed.

Lemma dict_update_keys_elem d d2 k :
  k ∈ dict_keys (dict_update d d2) ↔ k ∈ dict_keys d ∨ k ∈ dict_keys d2.
Proof.
  revert d. induction d2 as [|[k' v] d2 IH]; intros d.
  - split; [by left | intros [?|?%elem_of_nil]; done].
  - rewrite dict_update_cons, IH, dict_keys_set.
    change (dict_keys ((k', v) :: d2)) with (k' :: dict_keys d2).
    rewrite elem_of_cons.
    destruct (decide (k' ∈ dict_keys d)) as [Hin|Hout].
    + split; [tauto|]. intros [?|[->|?]]; auto.
    + rewrite elem_of_app, list_elem_of_singleton. tauto.
Qed.

Lemma dict_get_update_other d d2 k :
  k ∉ dict_keys d2 → dict_get (dict_update d d2) k = dict_get d k.
Proof.
  revert d. induction d2 as [|[k' v] d2 IH]; intros d; [done|].
  change (dict_keys ((k', v) :: d2)) with (k' :: dict_keys d2).
  intros [Hne Hk]%not_elem_of_cons.
  rewrite dict_update_cons, IH by done.
  rewrite dict_get_set. by rewrite decide_False.
Qed.

Lemma dict_get_update_new d d2 k :
  NoDup (dict_keys d2) → k ∈ dict_keys d2 →
  dict_get (dict_update d d2) k = dict_get d2 k.
Proof.
  revert d. induction d2 as [|[k' v] d2 IH]; intros d.
  - by intros _ ?%elem_of_nil.
  - change (dict_keys ((k', v) :: d2)) with (k' :: dict_keys d2).
    intros [Hk' Hd2]%NoDup_cons Hk. rewrite dict_update_cons. simpl.
    destruct (decide (k' = k)) as [->|Hne].
    + rewrite (dict_get_update_other _ d2 k Hk').
      rewrite dict_get_set. by rewrite decide_True.
    + apply elem_of_cons in Hk as [->|Hk]; [done|]. by apply IH.
Qed.

End dict_merge.

Lemma merge_keys_prefix {V} (root : dict V) (ds : list (dict V)) :
  ∃ added, dict_keys (foldl dict_update root ds) = dict_keys root ++ added.
Proof.
  revert root. induction ds as [|d ds IH]; intros root; simpl.
  - exists []. by rewrite app_nil_r.
  - destruct (IH (dict_update root d)) as (added' & ->).
    destruct (dict_keys_update root d) as (added & -> & _).
    exists (added ++ added'). by rewrite app_assoc.
Qed.

Lemma merge_keys_elem {V} (root : dict V) (ds : list (dict V)) (k : string) :
  k ∈ dict_keys (foldl dict_update root ds)
  ↔ k ∈ dict_keys root ∨ ∃ d, d ∈ ds ∧ k ∈ dict_keys d.
Proof.
  revert root. induction ds as [|d ds IH]; intros root; simpl.
  - split; [by left|]. intros [?|(d & ?%elem_of_nil & _)]; done.
  - rewrite IH, dict_update_keys_elem. split.
    + intros [[?|?]|(d' & ? & ?)]; [by left| |].
      * right. exists d. split; [apply list_elem_of_here | done].
      * right. exists d'. split; [by apply list_elem_of_further | done].
    + intros [?|(d' & [->|?]%elem_of_cons & ?)]; [by auto|by auto|].
      right. by exists d'.
Qed.

Lemma merge_get_other {V} (root : dict V) (ds : list (dict V)) (k : string) :
  Forall (λ d, k ∉ dict_keys d) ds →
  dict_get (foldl dict_update root ds) k = dict_get root k.
Proof.
  intros Hds. revert root.
  induction Hds as [|d ds Hd _ IH]; intros root; simpl; [done|].
  by rewrite IH, dict_get_update_other.
Qed.

(** X8: merging the nested maps into the select map (lines 123-125)
    keeps the fields of the root map first and in their order, adds only
    keys of nested maps, leaves the expression of a field that no nested
    map has, and gives a field the expression of the last nested map that
    has it. *)
Theorem select_dict_merge (root : dict string) (nested : list (dict string))
    (k : string) :
  (∃ added,
     dict_keys (foldl dict_update root nested) = dict_keys root ++ added)
  ∧ (k ∈ dict_keys (foldl dict_update root nested)
     ↔ k ∈ dict_keys root ∨ ∃ d, d ∈ nested ∧ k ∈ dict_keys d)
  ∧ (Forall (λ d, k ∉ dict_keys d) nested →
     dict_get (foldl dict_update root nested) k = dict_get root k)
  ∧ (∀ before d after,
       nested = before ++ d :: after →
       NoDup (dict_keys d) → k ∈ dict_keys d →
       Forall (λ d', k ∉ dict_keys d') after →
       dict_get (foldl dict_update root nested) k = dict_get d k).
Proof.
  split_and!.
  - apply merge_keys_prefix.
  - apply merge_keys_elem.
  - apply merge_get_other.
  - intros before d after -> Hd Hk Hafter.
    rewrite foldl_app. simpl. rewrite merge_get_other by done.
    by apply dict_get_update_new.
Qed.

Example select_dict_merge_override :
  foldl dict_update map_dict
    [[("login", "l.login"); ("id", "l.id")]; [("login", "p.login")]]
  = [("id", "l.id"); ("name", "map.name"); ("login", "p.login")].
Proof. reflexivity. Qed.

(** ** Sanitized fields *)

Lemma dict_get_Some_elem {V} (d : dict V) (k : string) (v : V) :
  dict_get d k = Some v → v ∈ d.*2.
Proof.
  induction d as [|[k' v'] d IH]; simpl; [done|].
  destruct (decide (k' = k)).
  - intros [= ->]. apply list_elem_of_here.
  - intros ?. apply list_elem_of_further. by apply IH.
Qed.

Lemma sanitize_fields_keys (requested_fields : option string)
    (root : dict string) (nested_expression_dict : dict (dict string)) :
  Forall (λ field,
            field ∈ dict_keys (foldl dict_update root
                                     nested_expression_dict.*2))
         (sanitize_fields requested_fields
            (foldl dict_update root nested_expression_dict.*2)
            nested_expression_dict).
Proof.
  set (select_dict := foldl dict_update root nested_expression_dict.*2).
  unfold sanitize_fields.
  destruct requested_fields as [[|a s]|];
    [by apply Forall_forall|
     |by apply Forall_forall].
  generalize (filter (λ field, field ∈ dict_keys nested_expression_dict)
                     (Py.split "," (String a s))) as nested_fields.
  assert (Hstart :
    Forall (λ field, field ∈ dict_keys select_dict)
           (filter (λ field, field ∈ dict_keys select_dict)
                   (Py.split "," (String a s)))).
  { apply Forall_forall. by intros f [? _]%list_elem_of_filter. }
  revert Hstart.
  generalize (filter (λ field, field ∈ dict_keys select_dict)
                     (Py.split "," (String a s))) as fields.
  intros fields Hfields nested_fields. revert fields Hfields.
  induction nested_fields as [|nf nfs IH]; intros fields Hfields; simpl;
    [done|].
  apply IH.
  destruct (dict_get nested_expression_dict nf) as [nd|] eqn:Hnd; [|done].
  apply Forall_app. split; [done|].
  apply Forall_forall. intros f Hf. apply merge_keys_elem. right.
  exists nd. split; [by eapply dict_get_Some_elem | done].
Qed.

(** X9: every sanitized field has a select expression: it is a key of the
    merged select map. Requested names that are no keys are dropped, and a
    nested group contributes keys of the merged map only. *)
Theorem sanitize_fields_selectable (requested_fields : option string)
    (root : dict string) (nested_expression_dict : dict (dict string)) :
  Forall (λ field,
            field ∈ dict_keys (foldl dict_update root
                                     nested_expression_dict.*2))
         (sanitize_fields requested_fields
            (foldl dict_update root nested_expression_dict.*2)
            nested_expression_dict).
Proof. apply sanitize_fields_keys. Qed.

Example sanitize_fields_nested_group :
  sanitize_fields (Some "player,name,bogus")
    (foldl dict_update map_dict [[("login", "l.login"); ("pid", "l.id")]])
    [("player", [("login", "l.login"); ("pid", "l.id")])]
  = ["name"; "login"; "pid"].
Proof. reflexivity. Qed.

(** ** Query Orchestrator: what is validated, and what is ignored *)

Section orchestrator_frame.
Variable int_of_str : string → option Z.
Variables (schema : Schema) (table : string).
Variables (root_select_expression_dict : dict string) (max_page_size : Z).
Variables (where_ where_extension : string).
Variable nested_expression_dict : dict (dict string).


(** X12: for a single entry ([many] unset) nothing of the request is
    validated or used but the sparse fieldset: [build_query] never raises,
    its statement has neither [ORDER BY] nor [LIMIT], and it is the same for
    every sort override, limit flag and request with the same
    [fields[...]] parameter. *)
Theorem build_query_single (request request' : request_values)
    (sort sort' : option string) (limit limit' : bool) :
  request !! ("fields[" +:+ type_ schema +:+ "]")
  = request' !! ("fields[" +:+ type_ schema +:+ "]") →
  build_query int_of_str schema table root_select_expression_dict
    max_page_size request where_ where_extension false sort limit
    nested_expression_dict
  = build_query int_of_str schema table root_select_expression_dict
      max_page_size request' where_ where_extension false sort' limit'
      nested_expression_dict
  ∧ ∃ select_expressions id_selected,
      build_query int_of_str schema table root_select_expression_dict
        max_page_size request where_ where_extension false sort limit
        nested_expression_dict
      = Ok (mkQuery
              (select_statement select_expressions table
                 (where_clause where_ where_extension) "" "")
              id_selected).
Proof.
  intros Hfields. unfold build_query. rewrite Hfields. simpl.
  split; [done|]. by do 2 eexists.
Qed.

(** X13: a non-empty sort override replaces the request's [sort]
    parameter, which is then not read; [None] and the empty override fall
    back to the request's parameter. *)
Theorem build_query_sort_override (request request' : request_values)
    (many : bool) (sort : option string) (limit : bool) :
  (Py.truthy sort = true →
   (∀ k, k ≠ "sort" → request !! k = request' !! k) →
   build_query int_of_str schema table root_select_expression_dict
     max_page_size request where_ where_extension many sort limit
     nested_expression_dict
   = build_query int_of_str schema table root_select_expression_dict
       max_page_size request' where_ where_extension many sort limit
       nested_expression_dict)
  ∧ (Py.truthy sort = false →
     build_query int_of_str schema table root_select_expression_dict
       max_page_size request where_ where_extension many sort limit
       nested_expression_dict
     = build_query int_of_str schema table root_select_expression_dict
         max_page_size request where_ where_extension many
         (request !! "sort") limit nested_expression_dict).
Proof.
  split.
  - intros Hsort Hagree. unfold build_query. rewrite Hsort.
    rewrite (Hagree ("fields[" +:+ type_ schema +:+ "]")) by done.
    unfold get_page_attributes, values_get.
    by rewrite (Hagree "page[size]"), (Hagree "page[number]").
  - intros Hsort. unfold build_query. rewrite Hsort.
    by destruct (Py.truthy (request !! "sort")).
Qed.

End orchestrator_frame.


Lemma build_query_single_witness :
  build_query int_of_decimal (jsonapi_schema "map") "map" map_dict 100
    {["page[size]" := "abc"; "sort" := "bogus"]} "id = 7" "" false None true
    []
  = build_query int_of_decimal (jsonapi_schema "map") "map" map_dict 100 ∅
      "id = 7" "" false (Some "-name") false [].
Proof.
  refine (proj1 (build_query_single int_of_decimal (jsonapi_schema "map")
    "map" map_dict 100 "id = 7" "" []
    {["page[size]" := "abc"; "sort" := "bogus"]} ∅ None (Some "-name")
    true false _)).
  reflexivity.
Defined.

Example build_query_sort_override_example :
  build_query int_of_decimal (jsonapi_schema "map") "map" map_dict 100
    {["sort" := "bogus"]} "" "" true (Some "-name") true []
  = Ok (mkQuery
          "SELECT map.id AS `id`, map.name AS `name` FROM map  ORDER BY `name` DESC LIMIT 0, 100"
          true)
  ∧ build_query int_of_decimal (jsonapi_schema "map") "map" map_dict 100
      {["sort" := "name"]} "" "" true (Some "") true []
    = Ok (mkQuery
            "SELECT map.id AS `id`, map.name AS `name` FROM map  ORDER BY `name` ASC LIMIT 0, 100"
            true).
Proof. split; reflexivity. Qed.

(** ** The id fix-up: when it succeeds, and what it leaves alone *)

Lemma bind_Ok_inv {A B} (m : result A) (f : A → result B) (b : B) :
  m ≫= f = Ok b → ∃ a, m = Ok a ∧ f a = Ok b.
Proof. destruct m as [a|e]; simpl; [by eauto | done]. Qed.

Lemma py_getitem_Ok x k v :
  py_getitem x k = Ok v → ∃ d, x = JDict d ∧ dict_get d k = Some v.
Proof.
  destruct x; simpl; try done.
  destruct (dict_get d k) as [v'|] eqn:E; [|done]. intros [= <-]. eauto.
Qed.

Lemma py_setitem_Ok x k v x' :
  py_setitem x k v = Ok x' → ∃ d, x = JDict d ∧ x' = JDict (dict_set d k v).
Proof. destruct x; simpl; try done. intros [= <-]. eauto. Qed.

Lemma dict_set_set {V} (d : dict V) (k : string) (v v' : V) :
  dict_set (dict_set d k v) k v' = dict_set d k v'.
Proof.
  induction d as [|[k0 v0] d IH]; simpl.
  - by rewrite decide_True.
  - destruct (decide (k0 = k)) as [->|Hne]; simpl.
    + by rewrite decide_True.
    + by rewrite decide_False, IH.
Qed.

Lemma with_id_attribute_is_resource (item : json) :
  is_resource item → is_resource (with_id_attribute item).
Proof.
  intros (d & id & attributes & -> & Hid & Hattr).
  unfold with_id_attribute. rewrite Hid, Hattr.
  exists (dict_set d "attributes" (JDict (dict_set attributes "id" id))),
         id, (dict_set attributes "id" id).
  split_and!; [done| |]; rewrite dict_get_set.
  - by rewrite decide_False.
  - by rewrite decide_True.
Qed.

Lemma with_id_attribute_idemp (item : json) :
  with_id_attribute (with_id_attribute item) = with_id_attribute item.
Proof.
  destruct item as [| | | | |d]; try done. simpl.
  destruct (dict_get d "id") as [id|] eqn:Hid; [|by simpl; rewrite Hid].
  destruct (dict_get d "attributes") as [[| | | | |a]|] eqn:Hattr;
    try (by simpl; rewrite Hid, Hattr).
  simpl. rewrite !dict_get_set. rewrite decide_False by done.
  rewrite decide_True by done. rewrite Hid. by rewrite !dict_set_set.
Qed.

(** The first step of the loop that returns: the item is left (the loop
    breaks), or it is a resource and gets its id. *)
Lemma fixup_items_cons_Ok (item : json) (rest items' : list json) :
  fixup_items (item :: rest) = Ok items' →
  (lacks_attributes item ∧ items' = item :: rest)
  ∨ (is_resource item
     ∧ ∃ rest', fixup_items rest = Ok rest'
                ∧ items' = with_id_attribute item :: rest').
Proof.
  simpl. intros H.
  apply bind_Ok_inv in H as ([] & Hhas & H); simpl in H.
  - right.
    apply bind_Ok_inv in H as (id & Hid & H).
    apply bind_Ok_inv in H as (attributes & Hattr & H).
    apply bind_Ok_inv in H as (attributes' & Hset & H).
    apply bind_Ok_inv in H as (item' & Hitem & H).
    apply bind_Ok_inv in H as (rest' & Hrest & [= <-]).
    apply py_getitem_Ok in Hid as (d & -> & Hid).
    apply py_getitem_Ok in Hattr as (d' & [= <-] & Hattr).
    apply py_setitem_Ok in Hset as (a & -> & ->).
    apply py_setitem_Ok in Hitem as (d' & [= <-] & ->).
    split; [by exists d, id, a|].
    exists rest'. split; [done|]. simpl. by rewrite Hid, Hattr.
  - left. by injection H as <-.
Qed.

(** X14: the fix-up is idempotent: running it on a document it has
    returned gives that document again. *)
Theorem fixup_id_idempotent (many : bool) (data data' : json) :
  fixup_id many data = Ok data' → fixup_id many data' = Ok data'.
Proof.
  assert (Hitems : ∀ items items',
            fixup_items items = Ok items' → fixup_items items' = Ok items').
  { induction items as [|item rest IH]; intros items' H.
    - by injection H as <-.
    - apply fixup_items_cons_Ok in H
        as [[Hlack ->]|(Hres & rest' & Hrest & ->)].
      + simpl. unfold lacks_attributes in Hlack. by rewrite Hlack.
      + rewrite fixup_items_resource
          by (by apply with_id_attribute_is_resource).
        rewrite (IH _ Hrest). simpl. by rewrite with_id_attribute_idemp. }
  unfold fixup_id. destruct many.
  - intros H. pose proof H as Hsame.
    apply bind_Ok_inv in H as (resources & Hdata & H).
    apply py_getitem_Ok in Hdata as (doc & -> & Hdata).
    destruct resources as [| | | |items|d].
    1-4,6: apply bind_Ok_inv in H as (its & Hiter & H);
           apply bind_Ok_inv in H as (its' & Hfix & [= <-]);
           exact Hsame.
    apply bind_Ok_inv in H as (items' & Hfix & [= <-]).
    simpl. rewrite dict_get_set, decide_True by done. simpl.
    rewrite (Hitems _ _ Hfix). simpl. by rewrite dict_set_set.
  - intros H. apply bind_Ok_inv in H as (resource & Hdata & H).
    apply py_getitem_Ok in Hdata as (doc & -> & Hdata).
    apply bind_Ok_inv in H as (has_id & Hhas_id & H).
    apply bind_Ok_inv in H as (has_attributes & Hhas & H).
    destruct has_attributes.
    + destruct has_id; [|done].
      apply bind_Ok_inv in H as (id & Hid & H).
      apply bind_Ok_inv in H as (attributes & Hattr & H).
      apply bind_Ok_inv in H as (attributes' & Hset & H).
      apply bind_Ok_inv in H as (resource' & Hres & [= <-]).
      apply py_getitem_Ok in Hid as (d & -> & Hid).
      apply py_getitem_Ok in Hattr as (d' & [= <-] & Hattr).
      apply py_setitem_Ok in Hset as (a & -> & ->).
      apply py_setitem_Ok in Hres as (d' & [= <-] & ->).
      assert (Hr : JDict (dict_set d "attributes"
                            (JDict (dict_set a "id" id)))
                   = with_id_attribute (JDict d))
        by (simpl; by rewrite Hid, Hattr).
      rewrite Hr.
      fold (fixup_id false
              (JDict (dict_set doc "data" (with_id_attribute (JDict d))))).
      rewrite (fixup_id_single
                 (dict_set doc "data" (with_id_attribute (JDict d)))
                 (with_id_attribute (JDict d))).
      * by rewrite with_id_attribute_idemp, dict_set_set.
      * rewrite dict_get_set. by rewrite decide_True.
      * apply with_id_attribute_is_resource. by exists d, id, a.
    + injection H as <-. simpl. rewrite Hdata. simpl. rewrite Hhas_id.
      simpl. rewrite Hhas. done.
Qed.

Lemma fixup_id_idempotent_witness :
  let fixed :=
    JDict [("data",
            JList [JDict [("id", JInt 1);
                          ("attributes",
                           JDict [("name", JStr "a"); ("id", JInt 1)])];
                   JDict [("id", JInt 2)]])] in
  fixup_id true fixed = Ok fixed.
Proof.
  intros fixed.
  apply (fixup_id_idempotent true
           (JDict [("data",
                    JList [JDict [("id", JInt 1);
                                  ("attributes", JDict [("name", JStr "a")])];
                           JDict [("id", JInt 2)]])])).
  reflexivity.
Defined.

(** X15: the loop of the fix-up returns exactly when the items are some
    resources (each with an [id] and an [attributes] object) followed by
    nothing or by an item without [attributes] and anything after it; the
    resources get their id, the rest is returned as it is. *)
Theorem fixup_items_Ok_iff (items items' : list json) :
  fixup_items items = Ok items'
  ↔ ∃ resources rest,
      items = resources ++ rest
      ∧ Forall is_resource resources
      ∧ match rest with
        | [] => True
        | item :: _ => lacks_attributes item
        end
      ∧ items' = (with_id_attribute <$> resources) ++ rest.
Proof.
  split.
  - revert items'. induction items as [|item rest IH]; intros items' H.
    + injection H as <-. by exists [], [].
    + apply fixup_items_cons_Ok in H
        as [[Hlack ->]|(Hres & rest' & Hrest & ->)].
      * by exists [], (item :: rest).
      * destruct (IH _ Hrest) as (resources & tail & -> & Hall & Htail & ->).
        exists (item :: resources), tail.
        split_and!; [done|by constructor|done|done].
  - intros (resources & rest & -> & Hall & Hrest & ->).
    destruct rest as [|item rest].
    + rewrite !app_nil_r. by apply fixup_items_all.
    + by apply fixup_items_break.
Qed.

Lemma with_id_attribute_preserves (item : json) :
  (∀ k, k ≠ "attributes" →
        py_getitem (with_id_attribute item) k = py_getitem item k)
  ∧ (∀ k, k ≠ "id" →
          attribute (with_id_attribute item) k = attribute item k).
Proof.
  destruct item as [| | | | |d]; try done. simpl.
  destruct (dict_get d "id") as [id|] eqn:Hid; [|done].
  destruct (dict_get d "attributes") as [[| | | | |a]|] eqn:Hattr; try done.
  split; intros k Hk; unfold attribute; simpl.
  - rewrite dict_get_set. by rewrite decide_False.
  - rewrite dict_get_set, decide_True by done. rewrite Hattr. simpl.
    rewrite dict_get_set. by rewrite decide_False.
Qed.

(** X16: the loop of the fix-up neither drops, adds nor reorders items,
    and it changes nothing of an item but [attributes['id']]: every other
    key of the item and every other key of its [attributes] reads as
    before. *)
Theorem fixup_items_preserves (items items' : list json) :
  fixup_items items = Ok items' →
  length items' = length items
  ∧ Forall2 (λ item item',
               (∀ k, k ≠ "attributes" →
                     py_getitem item' k = py_getitem item k)
               ∧ (∀ k, k ≠ "id" → attribute item' k = attribute item k))
            items items'.
Proof.
  revert items'. induction items as [|item rest IH]; intros items' H.
  - injection H as <-. split; [done | constructor].
  - apply fixup_items_cons_Ok in H
      as [[Hlack ->]|(Hres & rest' & Hrest & ->)].
    + split; [done|]. apply Forall_Forall2_diag, Forall_forall. by intros.
    + destruct (IH _ Hrest) as [Hlen Hall]. split; [simpl; by rewrite Hlen|].
      constructor; [apply with_id_attribute_preserves | done].
Qed.

Lemma fixup_items_preserves_witness :
  let item :=
    JDict [("type", JStr "map"); ("id", JInt 1);
           ("attributes", JDict [("name", JStr "a")])] in
  let item' :=
    JDict [("type", JStr "map"); ("id", JInt 1);
           ("attributes", JDict [("name", JStr "a"); ("id", JInt 1)])] in
  fixup_items [item] = Ok [item']
  ∧ py_getitem item' "type" = py_getitem item "type"
  ∧ attribute item' "name" = attribute item "name".
Proof.
  intros item item'.
  assert (H : fixup_items [item] = Ok [item']) by reflexivity.
  split; [exact H|].
  destruct (fixup_items_preserves _ _ H) as [_ Hall].
  apply Forall2_cons_1 in Hall as [[Hkeys Hattrs] _].
  split; [by apply Hkeys | by apply Hattrs].
Defined.

(** X17: a resource with [attributes] but without [id] makes the fix-up of
    a list raise [KeyError('id')] (the loop does not test for [id]), while
    the fix-up of a single resource tests for both keys and returns a
    document whose resource lacks [id] as it is. *)
Theorem fixup_missing_id (doc : dict json) (resources : list json)
    (d : dict json) (rest : list json) :
  "id" ∉ dict_keys d →
  (Forall is_resource resources →
   "attributes" ∈ dict_keys d →
   dict_get doc "data" = Some (JList (resources ++ JDict d :: rest)) →
   fixup_id true (JDict doc) = Raise (KeyError "id"))
  ∧ (dict_get doc "data" = Some (JDict d) →
     fixup_id false (JDict doc) = Ok (JDict doc)).
Proof.
  intros Hid. split.
  - intros Hres Hattr.
    assert (Hitems :
      fixup_items (resources ++ JDict d :: rest) = Raise (KeyError "id")).
    { induction Hres as [|r resources Hr _ IH].
      - simpl. rewrite bool_decide_eq_true_2 by done. simpl.
        apply dict_get_None_keys in Hid. by rewrite Hid.
      - change (fixup_items (r :: resources ++ JDict d :: rest)
                = Raise (KeyError "id")).
        rewrite fixup_items_resource by done. by rewrite IH. }
    intros Hdata. unfold fixup_id. simpl. rewrite Hdata. simpl.
    by rewrite Hitems.
  - intros Hdata. unfold fixup_id. simpl. rewrite Hdata. simpl.
    rewrite bool_decide_eq_false_2 by done. done.
Qed.

Lemma fixup_missing_id_witness :
  let resource := [("attributes", JDict [("name", JStr "a")])] in
  fixup_id true (JDict [("data", JList [JDict resource])])
  = Raise (KeyError "id")
  ∧ fixup_id false (JDict [("data", JDict resource)])
    = Ok (JDict [("data", JDict resource)]).
Proof.
  intros resource.
  assert (Hid : "id" ∉ dict_keys resource).
  { intros [[=]|Hin%elem_of_nil]%elem_of_cons. done. }
  split.
  - refine (proj1 (fixup_missing_id [("data", JList [JDict resource])] []
                     resource [] Hid) _ _ eq_refl).
    + constructor.
    + apply list_elem_of_here.
  - exact (proj2 (fixup_missing_id [("data", JDict resource)] [] resource []
                    Hid) eq_refl).
Defined.

(** ** The select-list of the statement *)

Section orchestrator_select.
Variable int_of_str : string → option Z.
Variables (schema : Schema) (table : string).
Variables (root_select_expression_dict : dict string) (max_page_size : Z).
Variables (request : request_values) (where_ where_extension : string).
Variables (many : bool) (sort : option string) (limit : bool).
Variable nested_expression_dict : dict (dict string).

(** X18: when the merged select map has an [id], the statement selects
    exactly the sanitized fields, in their order, followed by [id] when it
    was not among them: [id] is always selected, and no requested name
    without a select expression is. *)
Theorem build_query_selects_id (q : query) (id_expr : string) :
  build_query int_of_str schema table root_select_expression_dict
    max_page_size request where_ where_extension many sort limit
    nested_expression_dict
  = Ok q →
  dict_get (foldl dict_update root_select_expression_dict
                  nested_expression_dict.*2) "id"
  = Some id_expr →
  let select_dict :=
    foldl dict_update root_select_expression_dict
          nested_expression_dict.*2 in
  let fields :=
    sanitize_fields (request !! ("fields[" +:+ type_ schema +:+ "]"))
      select_dict nested_expression_dict in
  let selected := if id_selected q then fields else fields ++ ["id"] in
  "id" ∈ selected
  ∧ ∃ exprs order_by limit_expression,
      Forall2 (λ f e, dict_get select_dict f = Some e) selected exprs
      ∧ statement q
        = select_statement
            (Py.join ", " (zip_with select_entry exprs selected)) table
            (where_clause where_ where_extension) order_by limit_expression.
Proof.
  intros Hq Hid select_dict fields selected.
  assert (Hkeys : Forall (λ f, f ∈ dict_keys select_dict) selected).
  { subst selected. destruct (id_selected q).
    - apply sanitize_fields_keys.
    - apply Forall_app. split; [apply sanitize_fields_keys|].
      repeat constructor. by eapply dict_get_Some_keys. }
  revert Hq. unfold build_query. fold select_dict. fold fields.
  intros Hq.
  assert (Hsel : ∃ order_by limit_expression,
            q = mkQuery
                  (select_statement
                     (get_select_expressions
                        (Some (if bool_decide ("id" ∈ fields)
                               then fields else fields ++ ["id"]))
                        select_dict)
                     table (where_clause where_ where_extension) order_by
                     limit_expression)
                  (bool_decide ("id" ∈ fields))).
  { destruct many; simpl in Hq.
    - destruct (get_page_attributes _ _ _) as [[page page_size]|e];
        simpl in Hq; [|done].
      destruct (get_order_by _ _) as [order_by|e]; simpl in Hq; [|done].
      injection Hq as <-. by do 2 eexists.
    - injection Hq as <-. by do 2 eexists. }
  destruct Hsel as (order_by & limit_expression & ->). simpl in *.
  fold selected in Hkeys |- *.
  assert (Hin : "id" ∈ selected).
  { subst selected. case_bool_decide; [done|].
    apply elem_of_app. right. apply list_elem_of_here. }
  split; [done|].
  destruct (field_selects_present select_dict (Some selected))
    as (exprs & HF & Heq).
  assert (Hne : selected ≠ []) by (by intros Hnil; rewrite Hnil in Hin;
                                    apply elem_of_nil in Hin).
  destruct selected as [|f fs] eqn:Hselected; [done|].
  rewrite (filter_all _ (f :: fs) Hkeys) in HF, Heq.
  exists exprs, order_by, limit_expression. split; [done|].
  unfold get_select_expressions. by rewrite Heq.
Qed.

End orchestrator_select.

Lemma build_query_selects_id_witness :
  build_query int_of_decimal (jsonapi_schema "map") "map" map_dict 100
    {["fields[map]" := "name,bogus"]} "" "" false None true []
  = Ok (mkQuery "SELECT map.name AS `name`, map.id AS `id` FROM map   " false)
  ∧ "id" ∈ ["name"; "id"].
Proof.
  assert (Hq :
    build_query int_of_decimal (jsonapi_schema "map") "map" map_dict 100
      {["fields[map]" := "name,bogus"]} "" "" false None true []
    = Ok (mkQuery "SELECT map.name AS `name`, map.id AS `id` FROM map   "
                  false)) by reflexivity.
  split; [exact Hq|].
  exact (proj1 (build_query_selects_id _ _ _ _ _ _ _ _ _ _ _ _ _ "map.id"
                  Hq eq_refl)).
Defined.
